(** * noisy-nyc: the street grid, the navigation state machine and the
      bearing-aware street-imagery cache, embedded from the TypeScript sources.

    Sources embedded here:
    - [src/components/ComplaintMap.tsx] (the street game): grid bounds, headings,
      intersection labels and the move/turn handlers;
    - [src/lib/streetviewCache.ts] (server file cache);
    - the browser imagery module (two-tier cache and [fetchStreetView]);
    - [src/app/api/streetview/route.ts]: the [GET] handler.

    Conventions.  Grid coordinates and millisecond timestamps are integers
    ([Z]).  Angles and coordinates are JavaScript numbers; they are modelled by
    exact rationals ([Q]) extended with [NaN] and the two infinities, so
    rounding of doubles and the sign of zero are not represented.  JavaScript
    objects used as dictionaries are [gmap string _].

    The geodesic conversion between grid and latitude/longitude
    ([moveByMeters], [distanceBetween], [computeLatLngFromGrid],
    [computeGridFromLatLng]) is trigonometry on doubles followed by
    [Math.round]; it has no counterpart over exact rationals and is not
    embedded.  Exceptions that escape a handler (a response body that is not
    JSON of the declared type, a failing write of the cache file) are not
    modelled either. *)

From Stdlib Require Import ZArith QArith Qround Qabs Qminmax Lia Lqa List Ascii String.
From stdpp Require Import base option list strings gmap pretty.

Set Warnings "-register-all".

Open Scope Z_scope.

(* ===================================================================== *)
(** * The grid and the navigation state machine (ComplaintMap.tsx)        *)
(* ===================================================================== *)

Module Grid.

Record GridPosition := mkGrid { street : Z; avenue : Z }.

Inductive Heading := north | east | south | west.

Inductive Turn := left | right.

Record IntersectionLabel := mkLabel { lstreet : string; lavenue : string }.

Definition Heading_eqb (a b : Heading) : bool :=
  match a, b with
  | north, north | east, east | south, south | west, west => true
  | _, _ => false
  end.

Definition headingOrder : list Heading := [north; east; south; west].

Definition headingVectors (h : Heading) : GridPosition :=
  match h with
  | north => mkGrid 1 0
  | south => mkGrid (-1) 0
  | east => mkGrid 0 1
  | west => mkGrid 0 (-1)
  end.

Definition oppositeHeading (h : Heading) : Heading :=
  match h with
  | north => south
  | south => north
  | east => west
  | west => east
  end.

Definition minStreet : Z := -25.
Definition maxStreet : Z := 55.
Definition minAvenue : Z := -6.
Definition maxAvenue : Z := 6.

Definition ORIGIN_STREET_NUMBER : Z := 45.
Definition ORIGIN_AVENUE_NUMBER : Z := 7.

(** [AVENUE_LABELS[n]]: [None] is JavaScript's [undefined]. *)
Definition AVENUE_LABELS (n : Z) : option string :=
  match n with
  | 1 => Some "1st Ave"
  | 2 => Some "2nd Ave"
  | 3 => Some "3rd Ave"
  | 4 => Some "Lexington Ave"
  | 5 => Some "Madison Ave"
  | 6 => Some "6th Ave"
  | 7 => Some "7th Ave"
  | 8 => Some "8th Ave"
  | 9 => Some "9th Ave"
  | 10 => Some "10th Ave"
  | 11 => Some "11th Ave"
  | 12 => Some "12th Ave"
  | _ => None
  end%string.

(** [Array.prototype.indexOf]: the first index holding [h], or [-1]. *)
Fixpoint indexOf (l : list Heading) (h : Heading) (i : Z) : Z :=
  match l with
  | [] => -1
  | x :: l' => if Heading_eqb x h then i else indexOf l' h (i + 1)
  end.

(** [headingOrder[nextIndex]!] with JavaScript's truncating [%]. *)
Definition rotateHeading (heading : Heading) (turn : Turn) : Heading :=
  let index := indexOf headingOrder heading 0 in
  let offset := match turn with right => 1 | left => -1 end in
  let len := Z.of_nat (length headingOrder) in
  let nextIndex := Z.rem (index + offset + len) len in
  nth (Z.to_nat nextIndex) headingOrder north.

(** Template-literal interpolation of an integer. *)
Definition show (z : Z) : string := pretty z.

Definition ordinalSuffix (value : Z) : string :=
  let absValue := Z.abs value in
  let lastDigit := Z.rem absValue 10 in
  let lastTwoDigits := Z.rem absValue 100 in
  if (11 <=? lastTwoDigits) && (lastTwoDigits <=? 13) then show value +:+ "th"
  else if lastDigit =? 1 then show value +:+ "st"
  else if lastDigit =? 2 then show value +:+ "nd"
  else if lastDigit =? 3 then show value +:+ "rd"
  else show value +:+ "th".

Definition formatStreetLabel (position : GridPosition) : string :=
  let streetNumber := ORIGIN_STREET_NUMBER + street position in
  let avenueNumber := ORIGIN_AVENUE_NUMBER + avenue position in
  let eastWestPrefix := if 5 <=? avenueNumber then "W" else "E" in
  eastWestPrefix +:+ " " +:+ ordinalSuffix streetNumber +:+ " St".

Definition formatAvenueLabel (position : GridPosition) : string :=
  let avenueNumber := ORIGIN_AVENUE_NUMBER + avenue position in
  match AVENUE_LABELS avenueNumber with
  | Some label => label
  | None => ordinalSuffix avenueNumber +:+ " Ave"
  end.

Definition describeIntersection (position : GridPosition) : IntersectionLabel :=
  mkLabel (formatStreetLabel position) (formatAvenueLabel position).

Definition clampToBounds (candidate : GridPosition) : GridPosition :=
  mkGrid (Z.min (Z.max (street candidate) minStreet) maxStreet)
         (Z.min (Z.max (avenue candidate) minAvenue) maxAvenue).

Definition isWithinBounds (candidate : GridPosition) : bool :=
  (minStreet <=? street candidate) && (street candidate <=? maxStreet) &&
  (minAvenue <=? avenue candidate) && (avenue candidate <=? maxAvenue).

Definition headingDescriptions (h : Heading) : string :=
  match h with
  | north => "north uptown"
  | south => "south downtown"
  | east => "east toward the river"
  | west => "west toward the river"
  end.

Definition headingShort (h : Heading) : string :=
  match h with
  | north => "North"
  | south => "South"
  | east => "East"
  | west => "West"
  end.

(** The component state that the handlers read and write. *)
Record NavState := mkNav {
  position : GridPosition;
  heading : Heading;
  statusLine : string
}.

Definition candidateOf (from : GridPosition) (direction : Heading) : GridPosition :=
  let vector := headingVectors direction in
  mkGrid (street from + street vector) (avenue from + avenue vector).

Definition canMove (from : GridPosition) (direction : Heading) : bool :=
  isWithinBounds (candidateOf from direction).

(** [setPosition(prev => ...)]: the updater re-checks the bounds on the
    state it is applied to. *)
Definition moveOneBlock (movementHeading : Heading) (s : NavState) : NavState :=
  let prev := position s in
  let candidate := candidateOf prev movementHeading in
  if negb (isWithinBounds candidate) then s
  else
    let nextIntersectionLabel := describeIntersection candidate in
    mkNav candidate (heading s)
      ("Rolling " +:+ headingDescriptions movementHeading +:+ " toward " +:+
       lstreet nextIntersectionLabel +:+ " and " +:+ lavenue nextIntersectionLabel +:+ ".").

Definition blockedForward (h : Heading) : string :=
  "Can't head toward " +:+ headingShort h +:+ " — that block is closed off.".

Definition blockedBackward (h : Heading) : string :=
  "Can't back toward " +:+ headingShort h +:+ " — construction behind you.".

Definition blockedTurn (h : Heading) : string :=
  "Facing " +:+ headingShort h +:+
  " — that block is closed off. Try another way or head back.".

Definition handleMoveForward (s : NavState) : NavState :=
  let forward := canMove (position s) (heading s) in
  if negb forward then mkNav (position s) (heading s) (blockedForward (heading s))
  else moveOneBlock (heading s) s.

Definition handleMoveBackward (s : NavState) : NavState :=
  let reverseHeading := oppositeHeading (heading s) in
  let backward := canMove (position s) reverseHeading in
  if negb backward then mkNav (position s) (heading s) (blockedBackward reverseHeading)
  else moveOneBlock reverseHeading s.

Definition handleTurn (direction : Turn) (s : NavState) : NavState :=
  let leftHeading := rotateHeading (heading s) left in
  let rightHeading := rotateHeading (heading s) right in
  let nextHeading := match direction with left => leftHeading | right => rightHeading end in
  let s1 := mkNav (position s) nextHeading (statusLine s) in
  if negb (canMove (position s) nextHeading)
  then mkNav (position s1) (heading s1) (blockedTurn nextHeading)
  else moveOneBlock nextHeading s1.

(** The four user actions of the engine. *)
Inductive Action := MoveForward | MoveBackward | TurnLeft | TurnRight.

Definition step (a : Action) (s : NavState) : NavState :=
  match a with
  | MoveForward => handleMoveForward s
  | MoveBackward => handleMoveBackward s
  | TurnLeft => handleTurn left s
  | TurnRight => handleTurn right s
  end.

Definition inBounds (p : GridPosition) : Prop :=
  minStreet <= street p <= maxStreet /\ minAvenue <= avenue p <= maxAvenue.

End Grid.


(* ===================================================================== *)
(** * JavaScript numbers, as far as the imagery code uses them            *)
(* ===================================================================== *)

Module Num.

(** A finite number, or one of the three non-finite values. *)
Inductive number := Fin (q : Q) | NaN | PosInf | NegInf.

Definition isFinite (n : number) : bool :=
  match n with Fin _ => true | _ => false end.

Definition Qltb (a b : Q) : bool := negb (Qle_bool b a).

(** Rounding toward zero, as in the quotient of JavaScript's [%]. *)
Definition Qtrunc (q : Q) : Z :=
  if Qle_bool 0 q then Qfloor q else Qceiling q.

(** [a % b] on finite operands with [b] non-zero: the remainder has the
    sign of the dividend. *)
Definition Qrem (a b : Q) : Q := (a - b * inject_Z (Qtrunc (a / b)))%Q.

Definition rem (x y : number) : number :=
  match x, y with
  | Fin a, Fin b => if Qeq_bool b 0 then NaN else Fin (Qrem a b)
  | Fin a, (PosInf | NegInf) => Fin a
  | _, _ => NaN
  end.

Definition add (x y : number) : number :=
  match x, y with
  | Fin a, Fin b => Fin (a + b)
  | NaN, _ | _, NaN => NaN
  | PosInf, NegInf | NegInf, PosInf => NaN
  | PosInf, _ | _, PosInf => PosInf
  | NegInf, _ | _, NegInf => NegInf
  end.

Definition neg (x : number) : number :=
  match x with
  | Fin a => Fin (- a)
  | NaN => NaN
  | PosInf => NegInf
  | NegInf => PosInf
  end.

Definition sub (x y : number) : number := add x (neg y).

(** [Math.abs]. *)
Definition abs (x : number) : number :=
  match x with
  | Fin a => Fin (Qabs a)
  | NaN => NaN
  | PosInf | NegInf => PosInf
  end.

(** [x < y]; every comparison with [NaN] is false. *)
Definition ltb (x y : number) : bool :=
  match x, y with
  | NaN, _ | _, NaN => false
  | Fin a, Fin b => Qltb a b
  | NegInf, (Fin _ | PosInf) => true
  | Fin _, PosInf => true
  | _, _ => false
  end.

Definition gtb (x y : number) : bool := ltb y x.

(** The extended order [x <= y] on non-NaN values, as a proposition. *)
Definition le (x y : number) : Prop :=
  match x, y with
  | NaN, _ | _, NaN => False
  | Fin a, Fin b => (a <= b)%Q
  | NegInf, _ => True
  | _, PosInf => True
  | _, _ => False
  end.

Definition lt (x y : number) : Prop := ltb x y = true.

(** ** Number.parseFloat

    The ASCII white space characters are skipped; the value of the literal
    is exact. *)

Definition isWhiteSpace (c : ascii) : bool :=
  let n := nat_of_ascii c in
  ((n =? 9) || (n =? 10) || (n =? 11) || (n =? 12) || (n =? 13) || (n =? 32))%nat.

Definition digitOf (c : ascii) : option Z :=
  let n := Z.of_nat (nat_of_ascii c) in
  if (48 <=? n) && (n <=? 57) then Some (n - 48) else None.

Fixpoint skipWhiteSpace (s : string) : string :=
  match s with
  | String c s' => if isWhiteSpace c then skipWhiteSpace s' else s
  | EmptyString => s
  end.

(** Reads a run of decimal digits: the digits (most significant first)
    and the rest of the input. *)
Fixpoint takeDigits (s : string) : list Z * string :=
  match s with
  | String c s' =>
      match digitOf c with
      | Some d => let '(ds, r) := takeDigits s' in (d :: ds, r)
      | None => ([], s)
      end
  | EmptyString => ([], s)
  end.

Definition digitsValue (ds : list Z) : Z :=
  fold_left (fun acc d => 10 * acc + d) ds 0.

Definition takeSign (s : string) : bool * string :=
  match s with
  | String "-" s' => (true, s')
  | String "+" s' => (false, s')
  | _ => (false, s)
  end.

(** [ExponentPart]: [e] or [E], an optional sign and at least one digit;
    an incomplete exponent is not part of the literal. *)
Definition takeExponent (s : string) : Z :=
  match s with
  | String c s' =>
      if (Ascii.eqb c "e" || Ascii.eqb c "E")%char then
        let '(negative, s'') := takeSign s' in
        match takeDigits s'' with
        | ([], _) => 0
        | (ds, _) => if negative then - digitsValue ds else digitsValue ds
        end
      else 0
  | EmptyString => 0
  end.

Definition startsWith (p s : string) : bool :=
  String.prefix p s.

(** The longest prefix of the trimmed input that is a [StrDecimalLiteral];
    [NaN] if there is none. *)
Definition parseFloat (input : string) : number :=
  let '(negative, s) := takeSign (skipWhiteSpace input) in
  if startsWith "Infinity" s then (if negative then NegInf else PosInf)
  else
    let '(intDigits, r) := takeDigits s in
    let '(fracDigits, r') :=
      match r with
      | String "." r1 => takeDigits r1
      | _ => ([], r)
      end in
    match intDigits, fracDigits with
    | [], [] => NaN
    | _, _ =>
        let mantissa :=
          (inject_Z (digitsValue (intDigits ++ fracDigits)) *
           Qpower 10 (- Z.of_nat (length fracDigits)))%Q in
        let magnitude := (mantissa * Qpower 10 (takeExponent r'))%Q in
        Fin (if negative then - magnitude else magnitude)%Q
    end.

(** ** Number.prototype.toFixed *)

Definition roundHalfUp (q : Q) : Z := Qfloor (q + (1 # 2))%Q.

Fixpoint zeros (n : nat) : string :=
  match n with O => "" | S n' => String "0" (zeros n') end.

(** [x.toFixed(f)] for finite [x] below 10^21 in magnitude; larger
    magnitudes are printed in the same positional form here. *)
Definition toFixed (x : number) (f : nat) : string :=
  match x with
  | NaN => "NaN"
  | PosInf => "Infinity"
  | NegInf => "-Infinity"
  | Fin q =>
      let sign := if Qltb q 0 then "-" else "" in
      let n := roundHalfUp (Qabs q * Qpower 10 (Z.of_nat f)) in
      let m := pretty n in
      if (f =? 0)%nat then sign +:+ m
      else
        let m' := if (String.length m <=? f)%nat
                  then zeros (f + 1 - String.length m) +:+ m else m in
        let k := String.length m' in
        sign +:+ substring 0 (k - f) m' +:+ "." +:+ substring (k - f) f m'
  end.

End Num.

(* ===================================================================== *)
(** * JSON values and the imagery data model                              *)
(* ===================================================================== *)

Module Json.

(** What [JSON.parse] and [response.json()] produce.  An object lists its
    own properties, each key once; a number is finite. *)
Inductive json :=
  | JNull
  | JBool (b : bool)
  | JNum (q : Q)
  | JStr (s : string)
  | JArr (items : list json)
  | JObj (fields : list (string * json)).

Fixpoint assoc (k : string) (fields : list (string * json)) : option json :=
  match fields with
  | [] => None
  | (k', v) :: rest => if String.eqb k k' then Some v else assoc k rest
  end.

(** Property access [v.k] for the property names this code reads;
    [None] is [undefined]. *)
Definition getField (v : json) (k : string) : option json :=
  match v with
  | JObj fields => assoc k fields
  | _ => None
  end.

(** [typeof v === "object"]: true of [null], arrays and objects. *)
Definition typeofObject (v : json) : bool :=
  match v with
  | JNull | JArr _ | JObj _ => true
  | _ => false
  end.

Definition isNull (v : json) : bool :=
  match v with JNull => true | _ => false end.

End Json.

Module Imagery.
Import Json Num.

Record StreetViewFrame := mkFrame {
  imageUrl : string;
  capturedAt : option string;
  compassAngle : option Q;
  id : option string
}.

Record StreetViewPayload := mkPayload {
  images : list StreetViewFrame;
  preferredIndex : Z
}.

Record CandidateFrame := mkCandidate {
  frame : StreetViewFrame;
  diff : number
}.

Definition normalizeBearingDifference (a b : number) : number :=
  let diff := rem (abs (sub a b)) (Fin 360) in
  if gtb diff (Fin 180) then sub (Fin 360) diff else diff.

(** [typeof v === "string" ? v : null] *)
Definition asString (v : option json) : option string :=
  match v with
  | Some (JStr s) => Some s
  | _ => None
  end.

(** [typeof v === "number" ? v : null] *)
Definition asNumber (v : option json) : option Q :=
  match v with
  | Some (JNum q) => Some q
  | _ => None
  end.

(** The thumbnail chain: the first of the three fields that holds a
    string, highest resolution first. *)
Definition thumbOf (image : json) : option string :=
  match getField image "thumb_2048_url" with
  | Some (JStr s) => Some s
  | _ =>
      match getField image "thumb_1024_url" with
      | Some (JStr s) => Some s
      | _ =>
          match getField image "thumb_512_url" with
          | Some (JStr s) => Some s
          | _ => None
          end
      end
  end.

(** [!thumb]: [null] and the empty string are falsy. *)
Definition falsy (thumb : option string) : bool :=
  match thumb with
  | None => true
  | Some s => String.eqb s ""
  end.

(** One iteration of [for (const image of images)].  [known] is the test
    on the bearing ([normalizedBearing != null] in the route,
    [Number.isFinite(normalizedBearing)] in the browser module). *)
Definition pushCandidate (known : bool) (normalizedBearing : number)
    (candidates : list CandidateFrame) (image : json) : list CandidateFrame :=
  match thumbOf image with
  | None => candidates
  | Some thumb =>
      if String.eqb thumb "" then candidates
      else
        let compassAngle := asNumber (getField image "compass_angle") in
        let diff :=
          match compassAngle with
          | Some angle =>
              if known then normalizeBearingDifference (Fin angle) normalizedBearing
              else PosInf
          | None => PosInf
          end in
        candidates ++
          [mkCandidate
             (mkFrame thumb (asString (getField image "captured_at")) compassAngle
                      (asString (getField image "id")))
             diff]
  end.

Definition buildCandidates (known : bool) (normalizedBearing : number)
    (images : list json) : list CandidateFrame :=
  fold_left (pushCandidate known normalizedBearing) images [].

(** The state of the [forEach] scan: [bestDiff], [preferredIndex] and
    the index of the element being visited. *)
Definition scanStep (st : number * Z * Z) (c : CandidateFrame) : number * Z * Z :=
  let '(bestDiff, preferredIndex, index) := st in
  if ltb (diff c) bestDiff then (diff c, index, index + 1)
  else (bestDiff, preferredIndex, index + 1).

Definition choosePreferredIndex (known : bool) (candidates : list CandidateFrame) : Z :=
  if known then
    let '(_, preferredIndex, _) := fold_left scanStep candidates (PosInf, 0, 0) in
    preferredIndex
  else 0.

Definition emptyPayload : StreetViewPayload := mkPayload [] 0.

(** The tail of both handlers once the upstream list is in hand: the payload
    that is cached and returned. *)
Definition selectFrames (known : bool) (normalizedBearing : number)
    (upstreamImages : list json) : StreetViewPayload :=
  if (length upstreamImages =? 0)%nat then emptyPayload
  else
    let candidates := buildCandidates known normalizedBearing upstreamImages in
    if (length candidates =? 0)%nat then emptyPayload
    else
      let preferredIndex := choosePreferredIndex known candidates in
      let frames := map frame candidates in
      mkPayload frames
        (Z.min (Z.max preferredIndex 0) (Z.of_nat (length frames) - 1)).

(** What the upstream image index answered: the fetch throws, or there is
    a response; the body of a successful response is JSON of the type the
    handlers give it, [{ data?: Array<Record<string, unknown>> }]. *)
Inductive FetchResult :=
  | FetchThrows
  | FetchResponse (ok : bool) (status : Z) (data : option (list json)).

End Imagery.

(* ===================================================================== *)
(** * The server file cache (src/lib/streetviewCache.ts)                  *)
(* ===================================================================== *)

Module ServerCache.
Import Num Imagery.

Record CacheEntry := mkEntry {
  lat : number;
  lng : number;
  bearing : number;
  cachedAt : Z;
  images : list StreetViewFrame;
  preferredIndex : Z
}.

Record CacheShape := mkShape {
  version : Z;
  entries : gmap string CacheEntry
}.

(** [Partial<CacheShape>], the type the module gives to the parsed file. *)
Record PartialCacheShape := mkPartial {
  pversion : option Z;
  pentries : option (gmap string CacheEntry)
}.

Definition CACHE_VERSION : Z := 2.
Definition CACHE_TTL_MS : Z := 1000 * 60 * 60 * 24 * 7.

(** The module-level [cacheStore] and the cache file.  [cacheFile = None]
    stands for a file that is missing or does not parse. *)
Record Store := mkStore {
  cacheStore : option CacheShape;
  cacheFile : option PartialCacheShape
}.

Definition getKey (lat lng bearing : number) : string :=
  toFixed lat 6 +:+ "|" +:+ toFixed lng 6 +:+ "|" +:+ toFixed bearing 1.

Definition normalizeBearing (bearing : number) : number :=
  let normalized := rem bearing (Fin 360) in
  if ltb normalized (Fin 0) then add normalized (Fin 360) else normalized.

Definition loadCache (w : Store) : CacheShape * Store :=
  match cacheStore w with
  | Some c => (c, w)
  | None =>
      let fresh := mkShape CACHE_VERSION ∅ in
      match cacheFile w with
      | Some parsed =>
          match pversion parsed, pentries parsed with
          | Some v, Some es =>
              if v =? CACHE_VERSION
              then let c := mkShape CACHE_VERSION es in (c, mkStore (Some c) (cacheFile w))
              else (fresh, mkStore (Some fresh) (cacheFile w))
          | _, _ => (fresh, mkStore (Some fresh) (cacheFile w))
          end
      | None => (fresh, mkStore (Some fresh) (cacheFile w))
      end
  end.

(** Writes [cacheStore] to the file; the write is taken to succeed. *)
Definition persistCache (w : Store) : Store :=
  match cacheStore w with
  | None => w
  | Some c => mkStore (Some c) (Some (mkPartial (Some (version c)) (Some (entries c))))
  end.

(** [now] is the value of [Date.now()] read by the call. *)
Definition getCachedStreetView (now : Z) (lat lng bearing : number) (w : Store)
    : option StreetViewPayload * Store :=
  let '(cache, w1) := loadCache w in
  let key := getKey lat lng (normalizeBearing bearing) in
  match entries cache !! key with
  | None => (None, w1)
  | Some entry =>
      if CACHE_TTL_MS <? now - cachedAt entry then
        let cache' := mkShape (version cache) (delete key (entries cache)) in
        (None, persistCache (mkStore (Some cache') (cacheFile w1)))
      else
        (Some (mkPayload (images entry) (preferredIndex entry)), w1)
  end.

Definition setCachedStreetView (now : Z) (lat lng bearing : number)
    (payload : StreetViewPayload) (w : Store) : Store :=
  let '(cache, w1) := loadCache w in
  let key := getKey lat lng (normalizeBearing bearing) in
  let entry := mkEntry lat lng (normalizeBearing bearing) now
                 (Imagery.images payload) (Imagery.preferredIndex payload) in
  let cache' := mkShape (version cache) (<[key := entry]> (entries cache)) in
  persistCache (mkStore (Some cache') (cacheFile w1)).

End ServerCache.

(* ===================================================================== *)
(** * The API route (src/app/api/streetview/route.ts, [GET])              *)
(* ===================================================================== *)

Module Route.
Import Num Json Imagery.

(** [searchParams.get]: [None] is [null]. *)
Record Request := mkRequest {
  latParam : option string;
  lngParam : option string;
  bearingParam : option string
}.

(** What the handler reads from its surroundings during one request:
    the environment variable, the clock at the cache read and at the cache
    write, and the upstream service's answer to the bounding-box query
    around a point. *)
Record Env := mkEnv {
  accessToken : option string;
  nowAtRead : Z;
  nowAtWrite : Z;
  upstream : number -> number -> FetchResult
}.

(** The cache and the log of upstream queries issued so far. *)
Record World := mkWorld {
  cache : ServerCache.Store;
  upstreamLog : list (number * number)
}.

Inductive Body :=
  | ErrorBody (error : string)
  | PayloadBody (payload : StreetViewPayload).

Record Response := mkResponse {
  status : Z;
  body : Body
}.

(** [!value] on [string | null | undefined]. *)
Definition missing (value : option string) : bool :=
  match value with
  | None => true
  | Some s => String.eqb s ""
  end.

Definition toNumber (value : string) : number := parseFloat value.

Definition bearingPreferenceOf (bearingParam : option string) : option number :=
  match bearingParam with
  | Some b => Some (rem (toNumber b) (Fin 360))
  | None => None
  end.

Definition normalizedBearingOf (bearingParam : option string) : option number :=
  let normalizedBearingRaw :=
    match bearingPreferenceOf bearingParam with
    | None => None
    | Some bp => Some (rem (add (rem bp (Fin 360)) (Fin 360)) (Fin 360))
    end in
  match normalizedBearingRaw with
  | None => None
  | Some raw => if negb (isFinite raw) then None else Some raw
  end.

(** [if (normalizedBearing != null) await setCachedStreetView(...)] *)
Definition cacheWrite (env : Env) (lat lng : number) (normalizedBearing : option number)
    (payload : StreetViewPayload) (w : World) : World :=
  match normalizedBearing with
  | Some nb =>
      mkWorld (ServerCache.setCachedStreetView (nowAtWrite env) lat lng nb payload (cache w))
              (upstreamLog w)
  | None => w
  end.

(** The handler after the cache lookup: the upstream query and the
    selection. *)
Definition queryUpstream (env : Env) (lat lng : number) (normalizedBearing : option number)
    (w : World) : Response * World :=
  let w1 := mkWorld (cache w) (upstreamLog w ++ [(lat, lng)]) in
  match upstream env lat lng with
  | FetchThrows =>
      (mkResponse 502 (ErrorBody "Failed to reach street imagery service."), w1)
  | FetchResponse ok _ data =>
      if negb ok then
        (mkResponse 502 (ErrorBody "Street imagery request failed."), w1)
      else
        let images := match data with Some l => l | None => [] end in
        let known := match normalizedBearing with Some _ => true | None => false end in
        let nb := match normalizedBearing with Some b => b | None => NaN end in
        let payloadToReturn := selectFrames known nb images in
        (mkResponse 200 (PayloadBody payloadToReturn),
         cacheWrite env lat lng normalizedBearing payloadToReturn w1)
  end.

Definition GET (env : Env) (request : Request) (w : World) : Response * World :=
  if missing (latParam request) || missing (lngParam request) then
    (mkResponse 400 (ErrorBody "Missing lat/lng parameters."), w)
  else if missing (accessToken env) then
    (mkResponse 500 (ErrorBody "Street imagery unavailable. No access token."), w)
  else
    let lat := toNumber (default "" (latParam request)) in
    let lng := toNumber (default "" (lngParam request)) in
    if negb (isFinite lat) || negb (isFinite lng) then
      (mkResponse 400 (ErrorBody "Invalid lat/lng parameters."), w)
    else
      let normalizedBearing := normalizedBearingOf (bearingParam request) in
      match normalizedBearing with
      | Some nb =>
          let '(cached, c1) :=
            ServerCache.getCachedStreetView (nowAtRead env) lat lng nb (cache w) in
          let w1 := mkWorld c1 (upstreamLog w) in
          match cached with
          | Some payload => (mkResponse 200 (PayloadBody payload), w1)
          | None => queryUpstream env lat lng normalizedBearing w1
          end
      | None => queryUpstream env lat lng normalizedBearing w
      end.

End Route.

(* ===================================================================== *)
(** * The browser imagery module: two-tier cache and [fetchStreetView]    *)
(* ===================================================================== *)

Module Browser.
Import Num Json Imagery.

Record CacheEntry := mkEntry {
  payload : json;
  cachedAt : Q;
  version : Q
}.

Definition CACHE_VERSION : Z := 2.
Definition CACHE_TTL_MS : Z := 1000 * 60 * 60 * 24 * 7.
Definition CACHE_KEY_PREFIX : string := "streetview-cache:v" +:+ pretty CACHE_VERSION +:+ ":".

(** The parts of the browser the module depends on and does not change:
    whether [window] exists, whether reading [window.localStorage] succeeds,
    when [setItem] throws (quota), the two JSON built-ins ([JSON_parse]
    returns [None] where [JSON.parse] throws), the access token and the
    upstream service. *)
Record Env := mkEnv {
  hasWindow : bool;
  storageAccessible : bool;
  setItemThrows : gmap string string -> string -> string -> bool;
  JSON_parse : string -> option json;
  JSON_stringify : json -> string;
  accessToken : option string;
  upstream : number -> number -> FetchResult
}.

(** [persistentStorage]: not probed yet, [null], or [localStorage]. *)
Inductive Probe := Unprobed | NoStorage | UseLocalStorage.

(** The mutable state: the [memoryCache] map (tier 1), the contents of
    [localStorage] (tier 2), the probe result and the log of upstream
    queries. *)
Record State := mkState {
  memoryCache : gmap string CacheEntry;
  localStorage : gmap string string;
  persistentStorage : Probe;
  upstreamLog : list (number * number)
}.

Definition normalizeBearing (bearing : number) : number :=
  if negb (isFinite bearing) then Fin 0
  else
    let normalized := rem bearing (Fin 360) in
    if ltb normalized (Fin 0) then add normalized (Fin 360) else normalized.

Definition getCacheKey (lat lng bearing : number) : string :=
  toFixed lat 6 +:+ "|" +:+ toFixed lng 6 +:+ "|" +:+ toFixed (normalizeBearing bearing) 1.

Definition isExpired (now : Z) (entry : CacheEntry) : bool :=
  Qltb (inject_Z CACHE_TTL_MS) (inject_Z now - cachedAt entry).

Definition withStorage (st : State) (ls : gmap string string) (p : Probe) : State :=
  mkState (memoryCache st) ls p (upstreamLog st).

(** Returns whether a storage object is available.  The first call probes
    by writing and removing a test key. *)
Definition getPersistentStorage (env : Env) (st : State) : bool * State :=
  match persistentStorage st with
  | UseLocalStorage => (true, st)
  | NoStorage => (false, st)
  | Unprobed =>
      if negb (hasWindow env) then (false, withStorage st (localStorage st) NoStorage)
      else if negb (storageAccessible env) then
        (false, withStorage st (localStorage st) NoStorage)
      else
        let testKey := CACHE_KEY_PREFIX +:+ "__test__" in
        if setItemThrows env (localStorage st) testKey "1" then
          (false, withStorage st (localStorage st) NoStorage)
        else
          (true, withStorage st (delete testKey (<[testKey := "1"%string]> (localStorage st)))
                   UseLocalStorage)
  end.

(** The runtime checks of [loadFromStorage] on the parsed value. *)
Definition validEntry (parsed : json) : option CacheEntry :=
  if negb (typeofObject parsed) || isNull parsed then None
  else
    match getField parsed "version", getField parsed "cachedAt", getField parsed "payload" with
    | Some (JNum v), Some (JNum t), Some p =>
        if negb (Qeq_bool v (inject_Z CACHE_VERSION)) then None
        else if negb (typeofObject p) || isNull p then None
        else Some (mkEntry p t v)
    | _, _, _ => None
    end.

Definition loadFromStorage (env : Env) (key : string) (st : State)
    : option CacheEntry * State :=
  let '(available, st1) := getPersistentStorage env st in
  if negb available then (None, st1)
  else
    match localStorage st1 !! key with
    | None => (None, st1)
    | Some raw =>
        if String.eqb raw "" then (None, st1)
        else
          let removed := withStorage st1 (delete key (localStorage st1)) (persistentStorage st1) in
          match JSON_parse env raw with
          | None => (None, removed)
          | Some parsed =>
              match validEntry parsed with
              | None => (None, removed)
              | Some entry => (Some entry, st1)
              end
          end
    end.

Definition entryToJson (entry : CacheEntry) : json :=
  JObj [("payload", payload entry); ("cachedAt", JNum (cachedAt entry));
        ("version", JNum (version entry))]%string.

Definition saveToStorage (env : Env) (key : string) (entry : CacheEntry) (st : State) : State :=
  let '(available, st1) := getPersistentStorage env st in
  if negb available then st1
  else
    let raw := JSON_stringify env (entryToJson entry) in
    if setItemThrows env (localStorage st1) key raw then st1
    else withStorage st1 (<[key := raw]> (localStorage st1)) (persistentStorage st1).

Definition removeFromStorage (env : Env) (key : string) (st : State) : State :=
  let '(available, st1) := getPersistentStorage env st in
  if negb available then st1
  else withStorage st1 (delete key (localStorage st1)) (persistentStorage st1).

Definition withMemory (st : State) (m : gmap string CacheEntry) : State :=
  mkState m (localStorage st) (persistentStorage st) (upstreamLog st).

Definition cacheKeyOf (lat lng bearing : number) : string :=
  CACHE_KEY_PREFIX +:+ getCacheKey lat lng bearing.

Definition getCachedStreetView (env : Env) (now : Z) (lat lng bearing : number) (st : State)
    : option json * State :=
  if negb (hasWindow env) then (None, st)
  else
    let cacheKey := cacheKeyOf lat lng bearing in
    match memoryCache st !! cacheKey with
    | Some inMemory =>
        if isExpired now inMemory then
          (None, removeFromStorage env cacheKey (withMemory st (delete cacheKey (memoryCache st))))
        else (Some (payload inMemory), st)
    | None =>
        let '(persisted, st1) := loadFromStorage env cacheKey st in
        match persisted with
        | None => (None, st1)
        | Some entry =>
            if isExpired now entry then (None, removeFromStorage env cacheKey st1)
            else (Some (payload entry), withMemory st1 (<[cacheKey := entry]> (memoryCache st1)))
        end
    end.

Definition setCachedStreetView (env : Env) (now : Z) (lat lng bearing : number)
    (p : json) (st : State) : State :=
  if negb (hasWindow env) then st
  else
    let cacheKey := cacheKeyOf lat lng bearing in
    let entry := mkEntry p (inject_Z now) (inject_Z CACHE_VERSION) in
    saveToStorage env cacheKey entry (withMemory st (<[cacheKey := entry]> (memoryCache st))).

(** The payload as the JSON value the cache holds. *)
Definition optJson {A} (f : A -> json) (o : option A) : json :=
  match o with Some a => f a | None => JNull end.

Definition frameToJson (f : StreetViewFrame) : json :=
  JObj [("imageUrl", JStr (imageUrl f)); ("capturedAt", optJson JStr (capturedAt f));
        ("compassAngle", optJson JNum (compassAngle f)); ("id", optJson JStr (id f))]%string.

Definition payloadToJson (p : StreetViewPayload) : json :=
  JObj [("images", JArr (map frameToJson (images p)));
        ("preferredIndex", JNum (inject_Z (preferredIndex p)))]%string.

(** [if (cached)]: JavaScript truthiness of the cached value. *)
Definition truthy (v : json) : bool :=
  match v with
  | JNull => false
  | JBool b => b
  | JNum q => negb (Qeq_bool q 0)
  | JStr s => negb (String.eqb s "")
  | JArr _ | JObj _ => true
  end.

Inductive Failure :=
  | AbortError
  | Error (message : string)
  | FetchError.

Inductive Outcome :=
  | Resolved (value : json)
  | Rejected (reason : Failure).

(** One call of [fetchStreetView]: the clock at the cache read and write
    and the state of the abort signal at the three places it is tested. *)
Record Call := mkCall {
  nowAtRead : Z;
  nowAtWrite : Z;
  abortedAtEntry : bool;
  abortedBeforeFetch : bool;
  abortedAfterFailure : bool
}.

Definition missing (value : option string) : bool :=
  match value with
  | None => true
  | Some s => String.eqb s ""
  end.

Definition fetchStreetView (env : Env) (call : Call) (lat lng bearing : number) (st : State)
    : Outcome * State :=
  if abortedAtEntry call then (Rejected AbortError, st)
  else
    let normalizedBearing := normalizeBearing bearing in
    let '(cached, st1) := getCachedStreetView env (nowAtRead call) lat lng normalizedBearing st in
    let hit := match cached with Some v => truthy v | None => false end in
    if hit then (Resolved (default JNull cached), st1)
    else if missing (accessToken env) then
      (Rejected (Error "Street imagery unavailable. No access token configured."), st1)
    else if abortedBeforeFetch call then (Rejected AbortError, st1)
    else
      let st2 := mkState (memoryCache st1) (localStorage st1) (persistentStorage st1)
                   (upstreamLog st1 ++ [(lat, lng)]) in
      match upstream env lat lng with
      | FetchThrows =>
          if abortedAfterFailure call then (Rejected AbortError, st2)
          else (Rejected FetchError, st2)
      | FetchResponse ok _ data =>
          if negb ok then (Rejected (Error "Street imagery request failed."), st2)
          else
            let images := match data with Some l => l | None => [] end in
            let payloadToReturn :=
              selectFrames (isFinite normalizedBearing) normalizedBearing images in
            (Resolved (payloadToJson payloadToReturn),
             setCachedStreetView env (nowAtWrite call) lat lng normalizedBearing
               (payloadToJson payloadToReturn) st2)
      end.

End Browser.

(* ===================================================================== *)
(** * The specification's own notions, for comparison with the code       *)
(* ===================================================================== *)

Module Spec.
Import Num Json Imagery.

(** Equality of numbers up to the representation of a rational. *)
Definition eqv (x y : number) : Prop :=
  match x, y with
  | Fin a, Fin b => (a == b)%Q
  | NaN, NaN | PosInf, PosInf | NegInf, NegInf => True
  | _, _ => False
  end.

(** [x mod m] as the specification writes it: the remainder of the
    floored division. *)
Definition specMod (x m : Q) : Q := (x - m * inject_Z (Qfloor (x / m)))%Q.

(** The specification's formula
    [min(|a - b| mod 360, 360 - (|a - b| mod 360))]. *)
Definition specBearingDifference (a b : Q) : Q :=
  Qmin (specMod (Qabs (a - b)) 360) (360 - specMod (Qabs (a - b)) 360)%Q.

(** A candidate is usable when the thumbnail chain yields a non-empty
    string. *)
Definition usable (image : json) : bool := negb (falsy (thumbOf image)).


(** The frame built from a usable upstream record. *)
Definition frameOf (image : json) : StreetViewFrame :=
  mkFrame (default "" (thumbOf image))
          (asString (getField image "captured_at"))
          (asNumber (getField image "compass_angle"))
          (asString (getField image "id")).

(** The bearing difference of a frame: infinite when the frame has no
    compass angle or the bearing is unknown. *)
Definition frameDiff (bearing : option Q) (f : StreetViewFrame) : number :=
  match bearing, compassAngle f with
  | Some b, Some a => normalizeBearingDifference (Fin a) (Fin b)
  | _, _ => PosInf
  end.

Definition finiteDiff (bearing : option Q) (f : StreetViewFrame) : Prop :=
  lt (frameDiff bearing f) PosInf.

(** The values a difference can take: a finite number or [+Infinity]. *)
Definition isDiff (d : number) : Prop :=
  match d with Fin _ | PosInf => True | _ => False end.

(** The candidate built from a usable upstream record. *)
Definition candidateFor (bearing : option Q) (image : json) : CandidateFrame :=
  mkCandidate (frameOf image) (frameDiff bearing (frameOf image)).

(** The arguments with which the handlers call the selection for a
    bearing that is known ([Some b]) or unknown ([None]). *)
Definition knownOf (bearing : option Q) : bool :=
  match bearing with Some _ => true | None => false end.

Definition bearingOf (bearing : option Q) : number :=
  match bearing with Some b => Fin b | None => NaN end.

(** ** The route's error contract *)

Definition latOf (request : Route.Request) : number :=
  Route.toNumber (default "" (Route.latParam request)).

Definition lngOf (request : Route.Request) : number :=
  Route.toNumber (default "" (Route.lngParam request)).

(** A coordinate parameter is absent (or empty). *)
Definition coordinatesMissing (request : Route.Request) : bool :=
  Route.missing (Route.latParam request) || Route.missing (Route.lngParam request).

(** A coordinate parameter does not parse to a finite number. *)
Definition coordinatesNotFinite (request : Route.Request) : bool :=
  negb (isFinite (latOf request)) || negb (isFinite (lngOf request)).

Definition tokenMissing (env : Route.Env) : bool :=
  Route.missing (Route.accessToken env).

(** The upstream fetch throws or answers with a non-success status. *)
Definition upstreamFails (result : FetchResult) : bool :=
  match result with
  | FetchThrows => true
  | FetchResponse ok _ _ => negb ok
  end.

(** The request carries a usable bearing and the cache holds an entry for
    it that is still fresh. *)
Definition servedFromCache (env : Route.Env) (request : Route.Request) (w : Route.World) : bool :=
  match Route.normalizedBearingOf (Route.bearingParam request) with
  | Some nb =>
      match fst (ServerCache.getCachedStreetView (Route.nowAtRead env)
                   (latOf request) (lngOf request) nb (Route.cache w)) with
      | Some _ => true
      | None => false
      end
  | None => false
  end.


(** The request passes the parameter and token checks of the handler. *)
Definition accepted (env : Route.Env) (request : Route.Request) : bool :=
  negb (coordinatesMissing request) && negb (tokenMissing env) &&
  negb (coordinatesNotFinite request).

(** ** The two-tier cache *)

(** Tier 2 is available to the module: the probe of
    [getPersistentStorage] succeeds (or has succeeded). *)
Definition tier2Available (env : Browser.Env) (st : Browser.State) : bool :=
  fst (Browser.getPersistentStorage env st).

(** What a stored string decodes to: the entry that passes the checks of
    [loadFromStorage], if any. *)
Definition decodeStored (env : Browser.Env) (raw : string) : option Browser.CacheEntry :=
  match Browser.JSON_parse env raw with
  | Some parsed => Browser.validEntry parsed
  | None => None
  end.

(** The age of an entry in milliseconds. *)
Definition age (now : Z) (entry : Browser.CacheEntry) : Q :=
  (inject_Z now - Browser.cachedAt entry)%Q.

Definition TTL : Q := inject_Z Browser.CACHE_TTL_MS.

Definition testKey : string := Browser.CACHE_KEY_PREFIX +:+ "__test__".

(** ** Concrete surroundings used in examples *)

(** A browser with working storage and no quota failures.  Its
    [JSON_parse] reads the JSON text of the empty array and rejects every
    other string used in the examples, none of which is JSON.  Its
    [JSON_stringify] is a stand-in: no example reads back from tier 2 what
    a write put there. *)
Definition demoBrowser : Browser.Env :=
  Browser.mkEnv true true (fun _ _ _ => false)
    (fun raw => if String.eqb raw "[]" then Some (JArr []) else None)
    (fun _ => "[]"%string)
    (Some "token"%string)
    (fun _ _ => FetchResponse true 200 (Some [])).

Definition timesSquare : number * number := (Fin (40758 # 1000), Fin (- (739855 # 10000))).

Definition HOUR : Z := 1000 * 60 * 60.
Definition DAY : Z := 24 * HOUR.

End Spec.

(* ===================================================================== *)
(** * The rest of the street game (ComplaintMap.tsx)                      *)
(* ===================================================================== *)

Module Game.
Import Grid Imagery.


Record MoveAvailability := mkMoves {
  forward : bool;
  backward : bool;
  mleft : bool;
  mright : bool
}.

(** The [availableMoves] memo of a render. *)
Definition availableMoves (s : NavState) : MoveAvailability :=
  let leftHeading := rotateHeading (heading s) left in
  let rightHeading := rotateHeading (heading s) right in
  mkMoves (canMove (position s) (heading s))
          (canMove (position s) (oppositeHeading (heading s)))
          (canMove (position s) leftHeading)
          (canMove (position s) rightHeading).

(** The [nextIntersection] memo: the label shown as "Next intersection". *)
Definition nextIntersection (s : NavState) : IntersectionLabel :=
  let vector := headingVectors (heading s) in
  let nextPosition := mkGrid (street (position s) + street vector)
                             (avenue (position s) + avenue vector) in
  describeIntersection (clampToBounds nextPosition).

(** [handleKeyDown], on [event.key]. *)
Definition handleKeyDown (key : string) (s : NavState) : NavState :=
  if String.eqb key "ArrowUp" || String.eqb key "w" || String.eqb key "W" then
    handleMoveForward s
  else if String.eqb key "ArrowDown" || String.eqb key "s" || String.eqb key "S" then
    handleMoveBackward s
  else if String.eqb key "ArrowLeft" || String.eqb key "a" || String.eqb key "A" then
    handleTurn left s
  else if String.eqb key "ArrowRight" || String.eqb key "d" || String.eqb key "D" then
    handleTurn right s
  else s.

(** A session: the key presses handled one after the other. *)
Definition pressKeys (keys : list string) (s : NavState) : NavState :=
  fold_left (fun st key => handleKeyDown key st) keys s.


(** The index shown first for a response: [preferredIndex] clamped into
    the frame list, 0 for an empty list. *)
Definition firstFrameIndex (data : StreetViewPayload) : Z :=
  let frames := images data in
  if (0 <? Z.of_nat (length frames))
  then Z.min (Z.max (preferredIndex data) 0) (Z.of_nat (length frames) - 1)
  else 0.

(** One tick of the auto-advance timer, which runs only when there is
    more than one frame. *)
Definition advanceFrame (frameCount : Z) (index : Z) : Z :=
  if frameCount <=? 1 then index else Z.rem (index + 1) frameCount.

End Game.

(* ===================================================================== *)
(** * The pass-through route (route.ts, the [GET] without a cache)        *)
(* ===================================================================== *)

Module Proxy.
Import Num Json.

Definition DEFAULT_LIMIT : Z := 12.

Definition defaultFields : string :=
  "id,thumb_2048_url,thumb_1024_url,thumb_512_url,captured_at,compass_angle".

Record Request := mkRequest {
  latParam : option string;
  lngParam : option string;
  limitParam : option string;
  fieldsParam : option string
}.

(** What [fetch] does with the query: it throws (an [Error] with a
    message, or something else), or it answers; [bodyJson] is [None] when
    [response.json()] throws, and [bodyText] is what [response.text()]
    gives after that ([None] when it throws as well). *)
Inductive FetchResult :=
  | FetchThrows (message : option string)
  | FetchResponse (ok : bool) (status : Z) (bodyJson : option json)
      (bodyText : option string).

(** The query sent upstream, as far as the request decides it: the point
    of the bounding box, the limit and the field list. *)
Record Query := mkQuery {
  qlat : number;
  qlng : number;
  qlimit : string;
  qfields : string
}.

Record Env := mkEnv {
  accessToken : option string;
  upstream : Query -> FetchResult
}.

(** A response of the handler, or an exception that escapes it. *)
Inductive Outcome :=
  | Responded (status : Z) (body : json)
  | Unhandled.

Definition missing (value : option string) : bool :=
  match value with
  | None => true
  | Some s => String.eqb s ""
  end.

Definition parseNumericParam (value : option string) : option number :=
  match value with
  | None => None
  | Some s =>
      if String.eqb s "" then None
      else
        let parsed := parseFloat s in
        if isFinite parsed then Some parsed else None
  end.

(** [limit && limit > 0 && limit < 50 ? Math.floor(limit).toString()
    : DEFAULT_LIMIT.toString()] *)
Definition mapillaryLimitOf (limitParam : option string) : string :=
  match parseNumericParam limitParam with
  | Some (Fin q) =>
      if negb (Qeq_bool q 0) && Qltb 0 q && Qltb q 50
      then pretty (Qfloor q) else pretty DEFAULT_LIMIT
  | _ => pretty DEFAULT_LIMIT
  end.

Definition fieldsOf (fieldsParam : option string) : string :=
  match fieldsParam with
  | Some f => if String.eqb f "" then defaultFields else f
  | None => defaultFields
  end.

Definition errorBody (error : string) (extra : list (string * json)) : json :=
  JObj (("error", JStr error) :: extra)%string.

Definition GET (env : Env) (request : Request) : Outcome :=
  match parseNumericParam (latParam request), parseNumericParam (lngParam request) with
  | Some lat, Some lng =>
      let mapillaryLimit := mapillaryLimitOf (limitParam request) in
      let fields := fieldsOf (fieldsParam request) in
      if missing (accessToken env) then
        Responded 500 (errorBody "Street imagery unavailable. Missing server access token." [])
      else
        match upstream env (mkQuery lat lng mapillaryLimit fields) with
        | FetchThrows message =>
            Responded 502
              (errorBody "Failed to reach street imagery service."
                 match message with
                 | Some m => [("details", JStr m)]%string
                 | None => []
                 end)
        | FetchResponse ok status bodyJson bodyText =>
            if negb ok then
              let details :=
                match bodyJson, bodyText with
                | Some j, _ => Some j
                | None, Some t => Some (JStr t)
                | None, None => None
                end in
              match details with
              | Some d =>
                  Responded 502
                    (errorBody "Street imagery request failed."
                       [("upstreamStatus", JNum (inject_Z status)); ("details", d)]%string)
              | None => Unhandled
              end
            else
              match bodyJson with
              | Some payload => Responded 200 payload
              | None => Unhandled
              end
        end
  | _, _ => Responded 400 (errorBody "Missing or invalid lat/lng parameters." [])
  end.

End Proxy.

(* ===================================================================== *)
(** * Auxiliary notions for the further properties                        *)
(* ===================================================================== *)

Module Aux.
Import Grid Num.

(** The integers [lo, lo + 1, ..., lo + n - 1]. *)
Fixpoint zrange (lo : Z) (n : nat) : list Z :=
  match n with
  | O => []
  | S n' => lo :: zrange (lo + 1) n'
  end.

Definition streetRange : list Z := zrange minStreet 81.
Definition avenueRange : list Z := zrange minAvenue 13.

(** No two distinct elements of [l] have the same image under [f]. *)
Definition injectiveOn (f : Z -> string) (l : list Z) : bool :=
  forallb (fun a => forallb (fun b => implb (String.eqb (f a) (f b)) (a =? b)) l) l.

(** [a] and [b] differ by a whole number of turns. *)
Definition sameDirection (a b : Q) : Prop :=
  exists k : Z, (a - b == 360 * inject_Z k)%Q.

(** The availability flag that belongs to an action. *)
Definition flagOf (a : Action) (m : Game.MoveAvailability) : bool :=
  match a with
  | MoveForward => Game.forward m
  | MoveBackward => Game.backward m
  | TurnLeft => Game.mleft m
  | TurnRight => Game.mright m
  end.

(** The number of blocks between two intersections. *)
Definition blocksBetween (p q : GridPosition) : Z :=
  Z.abs (street p - street q) + Z.abs (avenue p - avenue q).

(** ** Lifetimes of the caches *)

(** The server process restarts: the module-level [cacheStore] is lost,
    the cache file stays. *)
Definition serverRestart (w : ServerCache.Store) : ServerCache.Store :=
  ServerCache.mkStore None (ServerCache.cacheFile w).

(** The [version] field of [CacheShape] has the literal type [2]. *)
Definition serverWellTyped (w : ServerCache.Store) : Prop :=
  forall c, ServerCache.cacheStore w = Some c ->
            ServerCache.version c = ServerCache.CACHE_VERSION.

(** The page is loaded again: the module state is lost, [localStorage]
    stays. *)
Definition pageReload (st : Browser.State) : Browser.State :=
  Browser.mkState ∅ (Browser.localStorage st) Browser.Unprobed [].

(** A browser with working storage whose JSON built-ins round-trip the
    one value [entry]: [JSON_stringify] writes a name for it and
    [JSON_parse] reads that name back. *)
Definition echoBrowser (entry : Json.json) : Browser.Env :=
  Browser.mkEnv true true (fun _ _ _ => false)
    (fun raw => if String.eqb raw "entry" then Some entry else None)
    (fun _ => "entry"%string)
    (Some "token"%string)
    (fun _ _ => Imagery.FetchThrows).

(** The three cache components of the browser state agree (the log of
    upstream queries may differ). *)
Definition sameCaches (st st' : Browser.State) : Prop :=
  Browser.memoryCache st' = Browser.memoryCache st /\
  Browser.localStorage st' = Browser.localStorage st /\
  Browser.persistentStorage st' = Browser.persistentStorage st.

End Aux.

(* ===================================================================== *)
(** * Properties of the navigation state machine                          *)
(* ===================================================================== *)

Section GridFacts.
Import Grid.

Lemma isWithinBounds_spec (p : GridPosition) :
  isWithinBounds p = true <-> inBounds p.
Proof.
  unfold isWithinBounds, inBounds.
  rewrite !andb_true_iff, !Z.leb_le. tauto.
Qed.

Lemma isWithinBounds_false (p : GridPosition) :
  isWithinBounds p = false <-> ~ inBounds p.
Proof.
  rewrite <- isWithinBounds_spec. destruct (isWithinBounds p); split; intros; congruence.
Qed.

Lemma moveOneBlock_position (h : Heading) (s : NavState) :
  position (moveOneBlock h s) =
  if isWithinBounds (candidateOf (position s) h)
  then candidateOf (position s) h else position s.
Proof.
  unfold moveOneBlock. destruct (isWithinBounds (candidateOf (position s) h)); reflexivity.
Qed.

Lemma moveOneBlock_heading (h : Heading) (s : NavState) :
  heading (moveOneBlock h s) = heading s.
Proof.
  unfold moveOneBlock. destruct (isWithinBounds (candidateOf (position s) h)); reflexivity.
Qed.

Lemma handleMoveForward_position (s : NavState) :
  position (handleMoveForward s) =
  if canMove (position s) (heading s)
  then candidateOf (position s) (heading s) else position s.
Proof.
  unfold handleMoveForward. destruct (canMove (position s) (heading s)) eqn:E; cbn.
  - rewrite moveOneBlock_position. unfold canMove in E. now rewrite E.
  - reflexivity.
Qed.

Lemma handleMoveBackward_position (s : NavState) :
  position (handleMoveBackward s) =
  if canMove (position s) (oppositeHeading (heading s))
  then candidateOf (position s) (oppositeHeading (heading s)) else position s.
Proof.
  unfold handleMoveBackward.
  destruct (canMove (position s) (oppositeHeading (heading s))) eqn:E; cbn.
  - rewrite moveOneBlock_position. unfold canMove in E. now rewrite E.
  - reflexivity.
Qed.

Lemma handleTurn_position (d : Turn) (s : NavState) :
  position (handleTurn d s) =
  if canMove (position s) (rotateHeading (heading s) d)
  then candidateOf (position s) (rotateHeading (heading s) d) else position s.
Proof.
  unfold handleTurn; destruct d; cbv zeta;
    match goal with |- context [canMove ?p ?h] => destruct (canMove p h) eqn:E end;
    cbn [negb]; try reflexivity;
    rewrite moveOneBlock_position; cbn [position]; unfold canMove in E; now rewrite E.
Qed.

Lemma handleTurn_heading (d : Turn) (s : NavState) :
  heading (handleTurn d s) = rotateHeading (heading s) d.
Proof.
  unfold handleTurn; destruct d; cbv zeta;
    match goal with |- context [canMove ?p ?h] => destruct (canMove p h) eqn:E end;
    cbn [negb]; try reflexivity;
    rewrite moveOneBlock_heading; reflexivity.
Qed.

Lemma step_position_cases (a : Action) (s : NavState) :
  position (step a s) = position s \/
  exists h, position (step a s) = candidateOf (position s) h /\
            isWithinBounds (candidateOf (position s) h) = true.
Proof.
  destruct a; cbn [step].
  - rewrite handleMoveForward_position.
    destruct (canMove (position s) (heading s)) eqn:E; eauto.
  - rewrite handleMoveBackward_position.
    destruct (canMove (position s) (oppositeHeading (heading s))) eqn:E; eauto.
  - rewrite handleTurn_position.
    destruct (canMove (position s) (rotateHeading (heading s) left)) eqn:E; eauto.
  - rewrite handleTurn_position.
    destruct (canMove (position s) (rotateHeading (heading s) right)) eqn:E; eauto.
Qed.

(** C2.  From an in-bounds state each of the four transitions (move
    forward, move backward, turn left, turn right) yields a position that is
    again within the fixed bounds; and when the cell ahead is out of bounds,
    [handleMoveForward] keeps position and heading and sets the blocked
    status line. *)
Theorem transitions_preserve_bounds (s : NavState) (a : Action) :
  inBounds (position s) ->
  inBounds (position (step a s)) /\
  (~ inBounds (candidateOf (position s) (heading s)) ->
     position (step MoveForward s) = position s /\
     heading (step MoveForward s) = heading s /\
     statusLine (step MoveForward s) = blockedForward (heading s)).
Proof.
  intros Hin. split.
  - destruct (step_position_cases a s) as [-> | (h & -> & Hb)]; [exact Hin|].
    now apply isWithinBounds_spec.
  - intros Hout. apply isWithinBounds_false in Hout.
    cbn [step]. unfold handleMoveForward, canMove. rewrite Hout. cbn. auto.
Qed.

(** At the top row facing north: the move is refused and reported. *)
Lemma transitions_preserve_bounds_witness :
  inBounds (mkGrid 55 0) /\
  position (step MoveForward (mkNav (mkGrid 55 0) north "")) = mkGrid 55 0 /\
  statusLine (step MoveForward (mkNav (mkGrid 55 0) north "")) =
    "Can't head toward North — that block is closed off."%string.
Proof.
  assert (Hin : inBounds (position (mkNav (mkGrid 55 0) north ""))).
  { apply isWithinBounds_spec. reflexivity. }
  destruct (transitions_preserve_bounds (mkNav (mkGrid 55 0) north "") MoveForward Hin)
    as [_ Hblocked].
  assert (Hout : ~ inBounds (candidateOf (position (mkNav (mkGrid 55 0) north ""))
                               (heading (mkNav (mkGrid 55 0) north "")))).
  { apply isWithinBounds_false. reflexivity. }
  destruct (Hblocked Hout) as (Hp & _ & Hs).
  split; [exact Hin|]. split; [exact Hp|exact Hs].
Defined.

(** C3.  A turn first rotates the heading one step in the cyclic order
    [north, east, south, west] (right: next, left: previous); then, if the
    cell one block ahead in the new heading is in bounds, the position
    advances to it, otherwise the position is unchanged.  From (0,0) facing
    north a right turn gives heading east and position (0,1). *)
Theorem turn_rotates_then_advances (s : NavState) (d : Turn) :
  let h' := rotateHeading (heading s) d in
  (forall i, headingOrder !! i = Some (heading s) ->
     headingOrder !! ((i + match d with right => 1 | left => 3 end) mod 4)%nat = Some h') /\
  heading (handleTurn d s) = h' /\
  (inBounds (candidateOf (position s) h') ->
     position (handleTurn d s) = candidateOf (position s) h') /\
  (~ inBounds (candidateOf (position s) h') ->
     position (handleTurn d s) = position s) /\
  (forall line,
     heading (handleTurn right (mkNav (mkGrid 0 0) north line)) = east /\
     position (handleTurn right (mkNav (mkGrid 0 0) north line)) = mkGrid 0 1).
Proof.
  cbn zeta. split; [|split; [|split; [|split]]].
  - intros i Hi. destruct (heading s), d;
      (destruct i as [|[|[|[|i]]]]; cbn in Hi; try discriminate; reflexivity).
  - apply handleTurn_heading.
  - intros Hin. apply isWithinBounds_spec in Hin.
    rewrite handleTurn_position. unfold canMove. now rewrite Hin.
  - intros Hout. apply isWithinBounds_false in Hout.
    rewrite handleTurn_position. unfold canMove. now rewrite Hout.
  - intros line. split; reflexivity.
Qed.

Lemma turn_rotates_then_advances_witness :
  heading (handleTurn left (mkNav (mkGrid 3 (-6)) north "")) = west /\
  position (handleTurn left (mkNav (mkGrid 3 (-6)) north "")) = mkGrid 3 (-6) /\
  position (handleTurn right (mkNav (mkGrid 3 (-6)) north "")) = mkGrid 3 (-5).
Proof.
  pose proof (turn_rotates_then_advances (mkNav (mkGrid 3 (-6)) north "") left)
    as (_ & Hh & _ & Hblocked & _).
  pose proof (turn_rotates_then_advances (mkNav (mkGrid 3 (-6)) north "") right)
    as (_ & _ & Hopen & _ & _).
  split; [exact Hh|]. split.
  - apply Hblocked. apply isWithinBounds_false. reflexivity.
  - apply Hopen. apply isWithinBounds_spec. reflexivity.
Defined.

Lemma opposite_vector_negates (h : Heading) :
  street (headingVectors (oppositeHeading h)) = - street (headingVectors h) /\
  avenue (headingVectors (oppositeHeading h)) = - avenue (headingVectors h).
Proof. destruct h; split; reflexivity. Qed.

Lemma candidateOf_opposite (p : GridPosition) (h : Heading) :
  candidateOf (candidateOf p h) (oppositeHeading h) = p.
Proof.
  destruct p as [st av]. unfold candidateOf.
  destruct (opposite_vector_negates h) as [Hs Ha]. rewrite Hs, Ha. cbn.
  f_equal; lia.
Qed.

(** C9.  From an in-bounds state whose cells ahead and behind are both in
    bounds, [handleMoveForward] followed by [handleMoveBackward] leaves
    the heading alone and restores the original position; the vector of the
    opposite heading is the negation of the heading's vector. *)
Theorem forward_then_backward_cancels (s : NavState) :
  inBounds (position s) ->
  inBounds (candidateOf (position s) (heading s)) ->
  inBounds (candidateOf (position s) (oppositeHeading (heading s))) ->
  position (handleMoveBackward (handleMoveForward s)) = position s /\
  heading (handleMoveForward s) = heading s /\
  heading (handleMoveBackward (handleMoveForward s)) = heading s /\
  (forall h, street (headingVectors (oppositeHeading h)) = - street (headingVectors h) /\
             avenue (headingVectors (oppositeHeading h)) = - avenue (headingVectors h)).
Proof.
  intros Hin Hahead _.
  assert (Hfh : heading (handleMoveForward s) = heading s).
  { unfold handleMoveForward. destruct (canMove (position s) (heading s)); cbn;
      [apply moveOneBlock_heading | reflexivity]. }
  assert (Hfp : position (handleMoveForward s) = candidateOf (position s) (heading s)).
  { rewrite handleMoveForward_position. unfold canMove.
    apply isWithinBounds_spec in Hahead. now rewrite Hahead. }
  split; [|split; [exact Hfh|split; [|exact opposite_vector_negates]]].
  - rewrite handleMoveBackward_position, Hfh, Hfp. unfold canMove.
    rewrite candidateOf_opposite.
    apply isWithinBounds_spec in Hin. now rewrite Hin.
  - unfold handleMoveBackward.
    destruct (canMove (position (handleMoveForward s))
                (oppositeHeading (heading (handleMoveForward s)))); cbn;
      [rewrite moveOneBlock_heading|]; exact Hfh.
Qed.

Lemma forward_then_backward_cancels_witness :
  position (handleMoveForward (mkNav (mkGrid 0 0) north "")) = mkGrid 1 0 /\
  position (handleMoveBackward (handleMoveForward (mkNav (mkGrid 0 0) north ""))) = mkGrid 0 0.
Proof.
  split; [reflexivity|].
  apply (forward_then_backward_cancels (mkNav (mkGrid 0 0) north ""));
    apply isWithinBounds_spec; reflexivity.
Defined.

End GridFacts.

(* ===================================================================== *)
(** * Properties of the bearing score and of the selector                 *)
(* ===================================================================== *)

Section SelectorFacts.
Import Num Json Imagery Spec.

Lemma Qltb_lt (a b : Q) : Qltb a b = true <-> (a < b)%Q.
Proof.
  unfold Qltb. rewrite negb_true_iff. split.
  - intros H. apply Qnot_le_lt. intros Hle. apply Qle_bool_iff in Hle. congruence.
  - intros H. destruct (Qle_bool b a) eqn:E; [|reflexivity].
    apply Qle_bool_iff in E. exfalso. exact (Qlt_not_le _ _ H E).
Qed.

Lemma Qltb_ge (a b : Q) : Qltb a b = false <-> (b <= a)%Q.
Proof.
  unfold Qltb. rewrite negb_false_iff. apply Qle_bool_iff.
Qed.

Lemma Qtrunc_nonneg (q : Q) : (0 <= q)%Q -> Qtrunc q = Qfloor q.
Proof.
  intros H. unfold Qtrunc. apply Qle_bool_iff in H. now rewrite H.
Qed.

Lemma Qrem_specMod (x m : Q) : (0 <= x)%Q -> (0 < m)%Q -> Qrem x m = specMod x m.
Proof.
  intros Hx Hm. unfold Qrem, specMod. rewrite Qtrunc_nonneg; [reflexivity|].
  unfold Qdiv. apply Qmult_le_0_compat; [exact Hx|].
  apply Qlt_le_weak, Qinv_lt_0_compat, Hm.
Qed.

Lemma normalizeBearingDifference_Fin (a b : Q) :
  normalizeBearingDifference (Fin a) (Fin b) =
  let d := Qrem (Qabs (a + - b)) 360 in
  Fin (if Qltb 180 d then 360 + - d else d)%Q.
Proof.
  unfold normalizeBearingDifference, sub, neg, add, abs, rem, gtb, ltb.
  change (Qeq_bool 360 0) with false. cbv beta iota zeta.
  destruct (Qltb 180 (Qrem (Qabs (a + - b)) 360)); reflexivity.
Qed.

(** C5.  For all finite angles [a] and [b] the bearing difference is
    [min(|a - b| mod 360, 360 - (|a - b| mod 360))]; in particular
    difference(10, 350) = 20 and difference(0, 180) = 180. *)
Theorem bearing_difference_formula (a b : Q) :
  eqv (normalizeBearingDifference (Fin a) (Fin b)) (Fin (specBearingDifference a b)) /\
  normalizeBearingDifference (Fin 10) (Fin 350) = Fin 20 /\
  normalizeBearingDifference (Fin 0) (Fin 180) = Fin 180.
Proof.
  split; [|split; reflexivity].
  rewrite normalizeBearingDifference_Fin. cbv zeta. unfold eqv, specBearingDifference.
  change (a + - b)%Q with (a - b)%Q.
  rewrite Qrem_specMod by (try apply Qabs_nonneg; reflexivity).
  set (m := specMod (Qabs (a - b)) 360).
  destruct (Qltb 180 m) eqn:E.
  - apply Qltb_lt in E. rewrite Q.min_r; [reflexivity|]. lra.
  - apply Qltb_ge in E. rewrite Q.min_l; [reflexivity|]. lra.
Qed.

Ltac num_cases :=
  repeat match goal with
         | x : number |- _ => destruct x
         end;
  unfold lt, le, isDiff, ltb in *; cbn in *;
  try tauto; try discriminate; try reflexivity;
  rewrite ?Qltb_lt, ?Qltb_ge in *; try lra.

Lemma le_refl (x : number) : isDiff x -> le x x.
Proof. intros; num_cases. Qed.

Lemma ltb_false_le (x y : number) : isDiff x -> isDiff y -> ltb x y = false -> le y x.
Proof. intros; num_cases. Qed.

Lemma lt_le (x y : number) : isDiff x -> isDiff y -> lt x y -> le x y.
Proof. intros; num_cases. Qed.

Lemma le_trans (x y z : number) : le x y -> le y z -> le x z.
Proof. intros; num_cases. Qed.

Lemma lt_le_trans (x y z : number) : lt x y -> le y z -> lt x z.
Proof. intros; num_cases. Qed.

Lemma lt_PosInf (x y : number) : isDiff x -> lt x y -> lt x PosInf.
Proof. intros; num_cases. Qed.

Lemma not_lt_PosInf (x : number) : isDiff x -> ltb x PosInf = false -> x = PosInf.
Proof. intros; num_cases. Qed.

Lemma normalizeBearingDifference_isDiff (a b : Q) :
  isDiff (normalizeBearingDifference (Fin a) (Fin b)).
Proof. rewrite normalizeBearingDifference_Fin. exact I. Qed.

Lemma frameDiff_isDiff (bearing : option Q) (f : StreetViewFrame) :
  isDiff (frameDiff bearing f).
Proof.
  unfold frameDiff. destruct bearing, (compassAngle f); cbn [isDiff]; trivial.
  apply normalizeBearingDifference_isDiff.
Qed.


Lemma pushCandidate_spec (bearing : option Q) (acc : list CandidateFrame) (image : json) :
  pushCandidate (knownOf bearing) (bearingOf bearing) acc image =
  acc ++ (if usable image then [candidateFor bearing image] else []).
Proof.
  unfold pushCandidate, usable, falsy, candidateFor, frameOf, frameDiff.
  destruct (thumbOf image) as [thumb|]; cbn [negb default compassAngle].
  - destruct (String.eqb thumb "") eqn:E; cbn [negb].
    + now rewrite app_nil_r.
    + destruct bearing, (asNumber (getField image "compass_angle")); reflexivity.
  - now rewrite app_nil_r.
Qed.

Lemma buildCandidates_acc (bearing : option Q) (images : list json) (acc : list CandidateFrame) :
  fold_left (pushCandidate (knownOf bearing) (bearingOf bearing)) images acc =
  acc ++ map (candidateFor bearing) (List.filter usable images).
Proof.
  revert acc. induction images as [|image images IH]; intros acc; cbn [fold_left List.filter].
  - cbn. now rewrite app_nil_r.
  - rewrite IH, pushCandidate_spec. destruct (usable image).
    + cbn [map]. now rewrite <- app_assoc.
    + now rewrite app_nil_r.
Qed.

Lemma buildCandidates_spec (bearing : option Q) (images : list json) :
  buildCandidates (knownOf bearing) (bearingOf bearing) images =
  map (candidateFor bearing) (List.filter usable images).
Proof. unfold buildCandidates. now rewrite buildCandidates_acc. Qed.

Lemma scan_frames (bearing : option Q) (fs : list StreetViewFrame) :
  forall best pref idx,
    fold_left scanStep (map (fun f => mkCandidate f (frameDiff bearing f)) fs) (PosInf, 0, 0)
      = (best, pref, idx) ->
    idx = Z.of_nat (length fs) /\ isDiff best /\
    ((best = PosInf /\ pref = 0 /\ Forall (fun f => frameDiff bearing f = PosInf) fs) \/
     (exists f, 0 <= pref /\ fs !! Z.to_nat pref = Some f /\
        frameDiff bearing f = best /\ lt best PosInf /\
        (forall j g, fs !! j = Some g -> le best (frameDiff bearing g)) /\
        (forall j g, (j < Z.to_nat pref)%nat -> fs !! j = Some g ->
                     lt best (frameDiff bearing g)))).
Proof.
  induction fs as [|f fs IH] using rev_ind; intros best pref idx.
  - cbn. intros [= <- <- <-]. split; [reflexivity|]. split; [exact I|]. left. auto.
  - rewrite map_app, fold_left_app. cbn [map fold_left].
    destruct (fold_left scanStep _ (PosInf, 0, 0)) as [[b p] i] eqn:E.
    destruct (IH b p i eq_refl) as (Hi & Hb & Hinv). clear IH.
    pose proof (frameDiff_isDiff bearing f) as Hf.
    unfold scanStep. cbn [diff].
    destruct (ltb (frameDiff bearing f) b) eqn:L; intros [= <- <- <-].
    + (* a strictly better candidate: it becomes the preferred one *)
      split; [rewrite length_app; cbn; lia|]. split; [exact Hf|]. right.
      exists f. rewrite Hi, Nat2Z.id.
      split; [lia|]. split; [now apply list_lookup_middle|]. split; [reflexivity|].
      split; [exact (lt_PosInf _ _ Hf L)|].
      assert (Hold : forall j g, fs !! j = Some g ->
                lt (frameDiff bearing f) (frameDiff bearing g)).
      { intros j g Hg. apply (lt_le_trans _ b); [exact L|].
        destruct Hinv as [(-> & _ & Hall) | (f0 & _ & _ & _ & _ & Hmin & _)].
        - rewrite Forall_forall in Hall.
          rewrite (Hall g) by (eapply list_elem_of_lookup_2; eauto).
          exact I.
        - eapply Hmin; eauto. }
      split.
      * intros j g Hg. apply lookup_snoc_Some in Hg as [[_ Hg] | [_ <-]].
        -- apply lt_le; auto using frameDiff_isDiff. eapply Hold; eauto.
        -- now apply le_refl.
      * intros j g Hj Hg. apply lookup_snoc_Some in Hg as [[_ Hg] | [-> _]]; [|lia].
        eapply Hold; eauto.
    + (* not better: the state is kept *)
      split; [rewrite length_app; cbn; lia|]. split; [exact Hb|].
      destruct Hinv as [(-> & -> & Hall) | (f0 & Hp & Hl & Hd & Hfin & Hmin & Hfirst)].
      * left. split; [reflexivity|]. split; [reflexivity|].
        apply Forall_app. split; [exact Hall|]. constructor; [|constructor].
        now apply not_lt_PosInf.
      * right. exists f0. split; [exact Hp|]. split.
        { rewrite lookup_app_l; [exact Hl|]. eapply lookup_lt_Some; eauto. }
        split; [exact Hd|]. split; [exact Hfin|]. split.
        -- intros j g Hg. apply lookup_snoc_Some in Hg as [[_ Hg] | [_ <-]].
           ++ eapply Hmin; eauto.
           ++ now apply ltb_false_le.
        -- intros j g Hj Hg. apply lookup_snoc_Some in Hg as [[_ Hg] | [-> _]].
           ++ eapply Hfirst; eauto.
           ++ apply lookup_lt_Some in Hl. lia.
Qed.

Lemma selectFrames_unfold (bearing : option Q) (upstreamImages : list json) :
  selectFrames (knownOf bearing) (bearingOf bearing) upstreamImages =
  let fs := map frameOf (List.filter usable upstreamImages) in
  match fs with
  | [] => emptyPayload
  | _ =>
      mkPayload fs
        (Z.min (Z.max (choosePreferredIndex (knownOf bearing)
                         (map (fun f => mkCandidate f (frameDiff bearing f)) fs)) 0)
               (Z.of_nat (length fs) - 1))
  end.
Proof.
  unfold selectFrames. rewrite buildCandidates_spec.
  destruct upstreamImages as [|image rest]; [reflexivity|].
  cbn [length Nat.eqb]. cbv zeta.
  rewrite !map_map. unfold candidateFor at 2 3. cbn [frame].
  destruct (List.filter usable (image :: rest)) as [|k kept]; [reflexivity|].
  cbn [map length Nat.eqb]. unfold candidateFor. reflexivity.
Qed.

(** The selection on its own: order, range and choice of the preferred
    index. *)
Lemma selectFrames_spec (bearing : option Q) (upstreamImages : list json) :
  let p := selectFrames (knownOf bearing) (bearingOf bearing) upstreamImages in
  images p = map frameOf (List.filter usable upstreamImages) /\
  (images p <> [] -> 0 <= preferredIndex p < Z.of_nat (length (images p))) /\
  (bearing = None \/ Forall (fun f => ~ finiteDiff bearing f) (images p) ->
     preferredIndex p = 0) /\
  (Exists (finiteDiff bearing) (images p) ->
     exists f, 0 <= preferredIndex p /\
       images p !! Z.to_nat (preferredIndex p) = Some f /\
       (forall j g, images p !! j = Some g ->
                    le (frameDiff bearing f) (frameDiff bearing g)) /\
       (forall j g, (j < Z.to_nat (preferredIndex p))%nat -> images p !! j = Some g ->
                    lt (frameDiff bearing f) (frameDiff bearing g))) /\
  (forall f, compassAngle f = None -> frameDiff bearing f = PosInf).
Proof.
  cbv zeta. rewrite selectFrames_unfold. cbv zeta.
  set (fs := map frameOf (List.filter usable upstreamImages)).
  assert (Hlast : forall f, compassAngle f = None -> frameDiff bearing f = PosInf).
  { intros f Hf. unfold frameDiff. rewrite Hf. now destruct bearing. }
  destruct fs as [|f0 fs0] eqn:Efs.
  { cbn. split; [reflexivity|]. split; [congruence|]. split; [reflexivity|].
    split; [|exact Hlast]. intros H. inversion H. }
  rewrite <- Efs. cbn [images preferredIndex].
  assert (Hlen : 0 < Z.of_nat (length fs)) by (rewrite Efs; cbn; lia).
  unfold choosePreferredIndex.
  destruct bearing as [b|]; cbn [knownOf].
  - destruct (fold_left scanStep _ (PosInf, 0, 0)) as [[best pref] idx] eqn:E.
    destruct (scan_frames (Some b) fs best pref idx E) as (_ & _ & Hinv).
    destruct Hinv as [(-> & -> & Hall) | (f & Hp & Hl & Hd & Hfin & Hmin & Hfirst)].
    + (* no frame has a finite difference *)
      rewrite Z.max_id, Z.min_l by lia.
      split; [reflexivity|]. split; [lia|]. split; [reflexivity|].
      split; [|exact Hlast].
      intros Hex. apply Exists_exists in Hex as (g & Hg & Hfd).
      rewrite Forall_forall in Hall. unfold finiteDiff in Hfd.
      rewrite (Hall g Hg) in Hfd. discriminate.
    + pose proof (lookup_lt_Some _ _ _ Hl) as Hlt.
      rewrite Z.max_l, Z.min_l by lia.
      split; [reflexivity|]. split; [lia|]. split.
      * intros [Hb | Hnone]; [discriminate|].
        rewrite Forall_forall in Hnone. exfalso.
        apply (Hnone f); [eapply list_elem_of_lookup_2; eauto|].
        unfold finiteDiff. now rewrite Hd.
      * split; [|exact Hlast]. intros _. exists f. rewrite Hd. auto.
  - rewrite Z.max_id, Z.min_l by lia.
    split; [reflexivity|]. split; [lia|]. split; [reflexivity|].
    split; [|exact Hlast].
    intros Hex. apply Exists_exists in Hex as (g & _ & Hfd). discriminate.
Qed.

(** The ranking example of the specification: compass angles 10, 90 and
    200 with target bearing 0 prefer the first frame. *)
Lemma selector_ranking_example :
  let record a := JObj [("thumb_1024_url", JStr "u"); ("compass_angle", JNum a)]%string in
  preferredIndex
    (selectFrames true (Fin 0) [record 10%Q; record 90%Q; record 200%Q]) = 0 /\
  preferredIndex
    (selectFrames true (Fin 0) [record 90%Q; JObj []; record 350%Q; record 10%Q]) = 1.
Proof. split; reflexivity. Qed.

End SelectorFacts.

(* ===================================================================== *)
(** * Properties of the API route                                         *)
(* ===================================================================== *)

Section RouteFacts.
Import Num Json Imagery Spec Route.




Lemma normalizedBearingOf_finite (bearingParam : option string) (nb : number) :
  normalizedBearingOf bearingParam = Some nb -> exists q, nb = Fin q.
Proof.
  unfold normalizedBearingOf. destruct (bearingPreferenceOf bearingParam) as [bp|]; [|discriminate].
  destruct (rem (add (rem bp (Fin 360)) (Fin 360)) (Fin 360)) as [q| | |]; cbn;
    intros [= <-]. now exists q.
Qed.














End RouteFacts.

(* ===================================================================== *)
(** * Properties of the browser cache                                     *)
(* ===================================================================== *)

Section BrowserFacts.
Import Num Json Imagery Spec Browser.

Lemma isExpired_age (now : Z) (e : CacheEntry) :
  isExpired now e = true <-> (TTL < age now e)%Q.
Proof. unfold isExpired, TTL, age. apply Qltb_lt. Qed.

Lemma isExpired_fresh (now : Z) (e : CacheEntry) :
  isExpired now e = false <-> (age now e <= TTL)%Q.
Proof. unfold isExpired, TTL, age. apply Qltb_ge. Qed.

Lemma isExpired_written (now written : Z) (p : json) (v : Q) :
  isExpired now (mkEntry p (inject_Z written) v) = (CACHE_TTL_MS <? now - written).
Proof.
  destruct (CACHE_TTL_MS <? now - written) eqn:E.
  - apply isExpired_age. unfold TTL, age. cbn [cachedAt].
    apply Z.ltb_lt in E. unfold Qminus. rewrite <- inject_Z_opp, <- inject_Z_plus, <- Zlt_Qlt. lia.
  - apply isExpired_fresh. unfold TTL, age. cbn [cachedAt].
    apply Z.ltb_ge in E. unfold Qminus. rewrite <- inject_Z_opp, <- inject_Z_plus, <- Zle_Qle. lia.
Qed.

Lemma string_app_inj_l (p a b : string) : p +:+ a = p +:+ b -> a = b.
Proof. induction p as [|c p IH]; cbn; [auto|]. intros [= H]. auto. Qed.

(** A cache key is never the probe's test key: it contains a [|]. *)
Lemma cacheKey_not_testKey (lat lng bearing : number) :
  cacheKeyOf lat lng bearing <> testKey.
Proof.
  unfold cacheKeyOf, testKey, getCacheKey. intros H. apply string_app_inj_l in H.
  revert H. generalize (toFixed lat 6) as s1.
  generalize (toFixed lng 6 +:+ "|" +:+ toFixed (normalizeBearing bearing) 1) as s2.
  intros s2 s1 H.
  do 8 (destruct s1 as [|? s1]; cbn in H; [discriminate H|]; injection H as _ H).
  destruct s1; discriminate H.
Qed.

Lemma getPersistentStorage_memory (env : Env) (st : State) :
  memoryCache (snd (getPersistentStorage env st)) = memoryCache st.
Proof.
  unfold getPersistentStorage.
  destruct (persistentStorage st), (hasWindow env), (storageAccessible env);
    try reflexivity.
  cbn [negb]. destruct (setItemThrows env _ _ _); reflexivity.
Qed.

Lemma getPersistentStorage_log (env : Env) (st : State) :
  upstreamLog (snd (getPersistentStorage env st)) = upstreamLog st.
Proof.
  unfold getPersistentStorage.
  destruct (persistentStorage st), (hasWindow env), (storageAccessible env);
    try reflexivity.
  cbn [negb]. destruct (setItemThrows env _ _ _); reflexivity.
Qed.

Lemma getPersistentStorage_lookup (env : Env) (st : State) (k : string) :
  k <> testKey ->
  localStorage (snd (getPersistentStorage env st)) !! k = localStorage st !! k.
Proof.
  intros Hk. unfold getPersistentStorage.
  destruct (persistentStorage st), (hasWindow env), (storageAccessible env);
    try reflexivity.
  cbn [negb]. destruct (setItemThrows env _ _ _); [reflexivity|].
  cbn [snd withStorage localStorage].
  fold testKey. rewrite lookup_delete_ne, lookup_insert_ne by congruence. reflexivity.
Qed.

Lemma getPersistentStorage_stable (env : Env) (st : State) :
  getPersistentStorage env (snd (getPersistentStorage env st)) =
  getPersistentStorage env st.
Proof.
  unfold getPersistentStorage at 2 3.
  destruct (persistentStorage st) eqn:E.
  - destruct (hasWindow env); [|reflexivity].
    destruct (storageAccessible env); [|reflexivity].
    cbn [negb]. destruct (setItemThrows env _ _ _); reflexivity.
  - cbn [snd]. unfold getPersistentStorage. now rewrite E.
  - cbn [snd]. unfold getPersistentStorage. now rewrite E.
Qed.

Lemma removeFromStorage_memory (env : Env) (k : string) (st : State) :
  memoryCache (removeFromStorage env k st) = memoryCache st.
Proof.
  unfold removeFromStorage.
  pose proof (getPersistentStorage_memory env st) as H.
  destruct (getPersistentStorage env st) as [[] st1]; cbn in *; exact H.
Qed.


Lemma removeFromStorage_lookup (env : Env) (k : string) (st : State) :
  tier2Available env st = true ->
  localStorage (removeFromStorage env k st) !! k = None.
Proof.
  unfold tier2Available, removeFromStorage.
  destruct (getPersistentStorage env st) as [[] st1]; cbn; [|discriminate].
  intros _. apply lookup_delete_eq.
Qed.

(** [loadFromStorage] by cases on what tier 2 holds under the key. *)
Lemma loadFromStorage_cases (env : Env) (k : string) (st : State) :
  k <> testKey ->
  let probed := snd (getPersistentStorage env st) in
  let removed := withStorage probed (delete k (localStorage probed))
                   (persistentStorage probed) in
  loadFromStorage env k st =
  if tier2Available env st then
    match localStorage st !! k with
    | None => (None, probed)
    | Some raw =>
        if String.eqb raw "" then (None, probed)
        else match decodeStored env raw with
             | Some entry => (Some entry, probed)
             | None => (None, removed)
             end
    end
  else (None, probed).
Proof.
  intros Hk. cbv zeta. unfold loadFromStorage, tier2Available, decodeStored.
  rewrite <- (getPersistentStorage_lookup env st k Hk).
  destruct (getPersistentStorage env st) as [[] st1]; cbn [fst snd negb]; [|reflexivity].
  destruct (localStorage st1 !! k) as [raw|]; [|reflexivity].
  destruct (String.eqb raw ""); [reflexivity|].
  destruct (JSON_parse env raw) as [parsed|]; [|reflexivity].
  destruct (validEntry parsed); reflexivity.
Qed.

Lemma tier2Available_probed (env : Env) (st : State) :
  tier2Available env (snd (getPersistentStorage env st)) = tier2Available env st.
Proof. unfold tier2Available. now rewrite getPersistentStorage_stable. Qed.

Lemma tier2Available_withMemory (env : Env) (st : State) (m : gmap string CacheEntry) :
  tier2Available env (withMemory st m) = tier2Available env st.
Proof.
  unfold tier2Available, getPersistentStorage, withMemory. cbn.
  destruct (persistentStorage st), (hasWindow env), (storageAccessible env);
    try reflexivity.
  cbn. destruct (setItemThrows env _ _ _); reflexivity.
Qed.

Lemma validEntry_version (parsed : json) (e : CacheEntry) :
  validEntry parsed = Some e ->
  (version e == inject_Z CACHE_VERSION)%Q /\
  getField parsed "payload" = Some (payload e) /\
  getField parsed "cachedAt" = Some (JNum (cachedAt e)) /\
  typeofObject (payload e) = true /\ isNull (payload e) = false.
Proof.
  unfold validEntry.
  destruct (negb (typeofObject parsed) || isNull parsed); [discriminate|].
  destruct (getField parsed "version") as [[| |v| | |]|]; try discriminate.
  destruct (getField parsed "cachedAt") as [[| |t| | |]|]; try discriminate.
  destruct (getField parsed "payload") as [p|]; try discriminate.
  destruct (Qeq_bool v (inject_Z CACHE_VERSION)) eqn:Ev; cbn [negb]; [|discriminate].
  destruct (typeofObject p) eqn:Ep; cbn [negb orb]; [|discriminate].
  destruct (isNull p) eqn:En; [discriminate|].
  intros [= <-]. cbn. apply Qeq_bool_iff in Ev. auto.
Qed.

Lemma validEntry_wrong_version (parsed : json) :
  (forall v, getField parsed "version" = Some (JNum v) -> ~ (v == inject_Z CACHE_VERSION)%Q) ->
  validEntry parsed = None.
Proof.
  intros Hv. destruct (validEntry parsed) as [e|] eqn:E; [|reflexivity]. exfalso.
  revert E. unfold validEntry.
  destruct (negb (typeofObject parsed) || isNull parsed); [discriminate|].
  destruct (getField parsed "version") as [[| |v| | |]|]; try discriminate.
  destruct (getField parsed "cachedAt") as [[| |t| | |]|]; try discriminate.
  destruct (getField parsed "payload") as [p|]; try discriminate.
  destruct (Qeq_bool v (inject_Z CACHE_VERSION)) eqn:Ev; cbn [negb]; [|discriminate].
  apply Qeq_bool_iff in Ev. now destruct (Hv v eq_refl).
Qed.

(** C7 (amended).  In a browser, for every key.  A tier-1 entry within the
    TTL is returned and nothing changes; a tier-1 entry past the TTL is
    removed from tier 1 and from tier 2 and reported absent.  On a tier-1
    miss, a non-empty tier-2 string that decodes to a valid,
    version-matching, unexpired entry is copied into tier 1 and returned,
    and a non-empty tier-2 string that fails validation (it does not parse,
    it fails the shape or version check, or it is expired) is removed from
    tier 2 and reported absent. *)
Theorem two_tier_read (env : Env) (st : State) (now : Z) (lat lng bearing : number) :
  hasWindow env = true ->
  let key := cacheKeyOf lat lng bearing in
  let result := fst (getCachedStreetView env now lat lng bearing st) in
  let st' := snd (getCachedStreetView env now lat lng bearing st) in
  (forall e, memoryCache st !! key = Some e -> (age now e <= TTL)%Q ->
     result = Some (payload e) /\ st' = st) /\
  (forall e, memoryCache st !! key = Some e -> (TTL < age now e)%Q ->
     result = None /\ memoryCache st' !! key = None /\
     (tier2Available env st = true -> localStorage st' !! key = None)) /\
  (forall raw e, memoryCache st !! key = None -> tier2Available env st = true ->
     localStorage st !! key = Some raw -> raw <> ""%string ->
     decodeStored env raw = Some e -> (age now e <= TTL)%Q ->
     result = Some (payload e) /\ memoryCache st' !! key = Some e /\
     localStorage st' !! key = Some raw /\ (version e == inject_Z CACHE_VERSION)%Q) /\
  (forall raw, memoryCache st !! key = None -> tier2Available env st = true ->
     localStorage st !! key = Some raw -> raw <> ""%string ->
     (decodeStored env raw = None \/
      exists e, decodeStored env raw = Some e /\ (TTL < age now e)%Q) ->
     result = None /\ localStorage st' !! key = None /\ memoryCache st' !! key = None) /\
  (forall raw, JSON_parse env raw = None -> decodeStored env raw = None) /\
  (forall raw parsed, JSON_parse env raw = Some parsed ->
     (forall v, getField parsed "version" = Some (JNum v) ->
                ~ (v == inject_Z CACHE_VERSION)%Q) ->
     decodeStored env raw = None).
Proof.
  intros Hwin. cbv zeta.
  pose proof (cacheKey_not_testKey lat lng bearing) as Hk.
  set (key := cacheKeyOf lat lng bearing) in *.
  unfold getCachedStreetView. rewrite Hwin. cbn [negb]. fold key.
  split; [|split; [|split; [|split; [|split]]]].
  - intros e He Hage. rewrite He. apply isExpired_fresh in Hage. rewrite Hage. auto.
  - intros e He Hage. rewrite He. apply isExpired_age in Hage. rewrite Hage.
    cbn [fst snd]. split; [reflexivity|]. split.
    + rewrite removeFromStorage_memory. cbn. apply lookup_delete_eq.
    + intros Hav. apply removeFromStorage_lookup.
      now rewrite tier2Available_withMemory.
  - intros raw e Hm Hav Hraw Hne Hdec Hage. rewrite Hm.
    rewrite (loadFromStorage_cases env key st Hk). cbv zeta. rewrite Hav, Hraw.
    apply String.eqb_neq in Hne. rewrite Hne, Hdec.
    apply isExpired_fresh in Hage. rewrite Hage. cbn [fst snd].
    split; [reflexivity|]. split; [cbn; apply lookup_insert_eq|]. split.
    + cbn. now rewrite getPersistentStorage_lookup.
    + unfold decodeStored in Hdec. destruct (JSON_parse env raw); [|discriminate].
      now apply validEntry_version in Hdec.
  - intros raw Hm Hav Hraw Hne Hbad. rewrite Hm.
    rewrite (loadFromStorage_cases env key st Hk). cbv zeta. rewrite Hav, Hraw.
    apply String.eqb_neq in Hne. rewrite Hne.
    destruct Hbad as [-> | (e & -> & Hage)].
    + cbn. rewrite getPersistentStorage_memory. split; [reflexivity|].
      split; [apply lookup_delete_eq | exact Hm].
    + apply isExpired_age in Hage. rewrite Hage. cbn [fst snd].
      split; [reflexivity|]. split.
      * apply removeFromStorage_lookup. now rewrite tier2Available_probed.
      * now rewrite removeFromStorage_memory, getPersistentStorage_memory.
  - intros raw Hp. unfold decodeStored. now rewrite Hp.
  - intros raw parsed Hp Hv. unfold decodeStored. rewrite Hp.
    now apply validEntry_wrong_version.
Qed.

(** A stored array is not an entry: the read reports a miss and removes
    it from tier 2. *)
Lemma two_tier_read_witness :
  let key := cacheKeyOf (fst timesSquare) (snd timesSquare) (Fin 0) in
  let st := mkState ∅ {[ key := "[]"%string ]} Unprobed [] in
  fst (getCachedStreetView demoBrowser 0 (fst timesSquare) (snd timesSquare) (Fin 0) st) = None /\
  localStorage
    (snd (getCachedStreetView demoBrowser 0 (fst timesSquare) (snd timesSquare) (Fin 0) st))
    !! key = None.
Proof.
  cbv zeta.
  pose proof (two_tier_read demoBrowser
                (mkState ∅ {[ cacheKeyOf (fst timesSquare) (snd timesSquare) (Fin 0)
                              := "[]"%string ]} Unprobed [])
                0 (fst timesSquare) (snd timesSquare) (Fin 0) eq_refl)
    as (_ & _ & _ & Hbad & _).
  destruct (Hbad "[]"%string) as (Hr & Hl & _).
  - reflexivity.
  - reflexivity.
  - apply lookup_singleton_eq.
  - discriminate.
  - left. reflexivity.
  - split; [exact Hr | exact Hl].
Defined.

(** C7 as stated fails: a tier-2 item whose stored string is empty does
    not parse, yet the read leaves it in tier 2 (it is reported absent
    before any parsing is attempted). *)
Lemma empty_stored_string_is_kept :
  ~ (decodeStored demoBrowser "" = None ->
     localStorage
       (snd (getCachedStreetView demoBrowser 0 (fst timesSquare) (snd timesSquare) (Fin 0)
               (mkState ∅ {[ cacheKeyOf (fst timesSquare) (snd timesSquare) (Fin 0)
                             := ""%string ]} Unprobed [])))
       !! cacheKeyOf (fst timesSquare) (snd timesSquare) (Fin 0) = None).
Proof.
  intros H. specialize (H eq_refl). vm_compute in H. discriminate H.
Qed.

End BrowserFacts.

(* ===================================================================== *)
(** * Time-to-live of cached entries, in both caches                      *)
(* ===================================================================== *)

Section CacheFacts.
Import Num Json Imagery Spec.

Lemma saveToStorage_memory (env : Browser.Env) (k : string) (e : Browser.CacheEntry)
    (st : Browser.State) :
  Browser.memoryCache (Browser.saveToStorage env k e st) = Browser.memoryCache st.
Proof.
  unfold Browser.saveToStorage.
  pose proof (getPersistentStorage_memory env st) as H.
  destruct (Browser.getPersistentStorage env st) as [[] st1]; cbn in *; [|exact H].
  destruct (Browser.setItemThrows env _ _ _); exact H.
Qed.

Lemma saveToStorage_log (env : Browser.Env) (k : string) (e : Browser.CacheEntry)
    (st : Browser.State) :
  Browser.upstreamLog (Browser.saveToStorage env k e st) = Browser.upstreamLog st.
Proof.
  unfold Browser.saveToStorage.
  pose proof (getPersistentStorage_log env st) as H.
  destruct (Browser.getPersistentStorage env st) as [[] st1]; cbn in *; [|exact H].
  destruct (Browser.setItemThrows env _ _ _); exact H.
Qed.

Lemma browser_set_lookup (env : Browser.Env) (written : Z) (lat lng bearing : number)
    (v : json) (st : Browser.State) :
  Browser.hasWindow env = true ->
  Browser.memoryCache (Browser.setCachedStreetView env written lat lng bearing v st)
    !! Browser.cacheKeyOf lat lng bearing
  = Some (Browser.mkEntry v (inject_Z written) (inject_Z Browser.CACHE_VERSION)).
Proof.
  intros Hwin. unfold Browser.setCachedStreetView. rewrite Hwin. cbn [negb].
  rewrite saveToStorage_memory. cbn. apply lookup_insert_eq.
Qed.

Lemma browser_set_log (env : Browser.Env) (written : Z) (lat lng bearing : number)
    (v : json) (st : Browser.State) :
  Browser.upstreamLog (Browser.setCachedStreetView env written lat lng bearing v st)
  = Browser.upstreamLog st.
Proof.
  unfold Browser.setCachedStreetView. destruct (Browser.hasWindow env); cbn [negb];
    [|reflexivity].
  now rewrite saveToStorage_log.
Qed.

(** Reading back what was just written, in the browser cache. *)
Lemma browser_read_after_write (env : Browser.Env) (written now : Z)
    (lat lng bearing : number) (v : json) (st : Browser.State) :
  Browser.hasWindow env = true ->
  let st1 := Browser.setCachedStreetView env written lat lng bearing v st in
  Browser.getCachedStreetView env now lat lng bearing st1 =
  if Browser.CACHE_TTL_MS <? now - written
  then (None,
        Browser.removeFromStorage env (Browser.cacheKeyOf lat lng bearing)
          (Browser.withMemory st1
             (delete (Browser.cacheKeyOf lat lng bearing) (Browser.memoryCache st1))))
  else (Some v, st1).
Proof.
  intros Hwin. cbv zeta. unfold Browser.getCachedStreetView at 1.
  rewrite Hwin. cbn [negb].
  rewrite (browser_set_lookup env written lat lng bearing v st Hwin).
  rewrite isExpired_written.
  destruct (Browser.CACHE_TTL_MS <? now - written); reflexivity.
Qed.

(** Reading back what was just written, in the server cache. *)
Lemma server_read_after_write (written now : Z) (lat lng bearing : number)
    (p : StreetViewPayload) (w : ServerCache.Store) :
  let w1 := ServerCache.setCachedStreetView written lat lng bearing p w in
  fst (ServerCache.getCachedStreetView now lat lng bearing w1) =
    (if ServerCache.CACHE_TTL_MS <? now - written then None else Some p) /\
  (now - written <= ServerCache.CACHE_TTL_MS ->
   snd (ServerCache.getCachedStreetView now lat lng bearing w1) = w1).
Proof.
  cbv zeta. unfold ServerCache.setCachedStreetView.
  destruct (ServerCache.loadCache w) as [c w0].
  unfold ServerCache.persistCache. cbn [ServerCache.cacheStore ServerCache.version
    ServerCache.entries ServerCache.cacheFile].
  unfold ServerCache.getCachedStreetView, ServerCache.loadCache.
  cbn [ServerCache.cacheStore ServerCache.entries].
  rewrite lookup_insert_eq. cbn [ServerCache.cachedAt ServerCache.images
    ServerCache.preferredIndex].
  destruct (ServerCache.CACHE_TTL_MS <? now - written) eqn:E.
  - split; [reflexivity|]. apply Z.ltb_lt in E. lia.
  - split; [now destruct p|reflexivity].
Qed.

Lemma server_read_fresh (now : Z) (lat lng bearing : number) (w : ServerCache.Store)
    (v : StreetViewPayload) :
  fst (ServerCache.getCachedStreetView now lat lng bearing w) = Some v ->
  exists e,
    ServerCache.entries (fst (ServerCache.loadCache w))
      !! ServerCache.getKey lat lng (ServerCache.normalizeBearing bearing) = Some e /\
    now - ServerCache.cachedAt e <= ServerCache.CACHE_TTL_MS /\
    v = mkPayload (ServerCache.images e) (ServerCache.preferredIndex e).
Proof.
  unfold ServerCache.getCachedStreetView.
  destruct (ServerCache.loadCache w) as [c w0]. cbn [fst].
  destruct (ServerCache.entries c !! _) as [e|]; [|discriminate].
  destruct (ServerCache.CACHE_TTL_MS <? now - ServerCache.cachedAt e) eqn:E;
    [discriminate|].
  intros [= <-]. exists e. apply Z.ltb_ge in E. auto.
Qed.

Lemma browser_read_fresh (env : Browser.Env) (now : Z) (lat lng bearing : number)
    (st : Browser.State) (v : json) :
  fst (Browser.getCachedStreetView env now lat lng bearing st) = Some v ->
  exists e,
    Browser.payload e = v /\ (age now e <= TTL)%Q /\
    (Browser.memoryCache st !! Browser.cacheKeyOf lat lng bearing = Some e \/
     exists raw, Browser.localStorage st !! Browser.cacheKeyOf lat lng bearing = Some raw /\
                 decodeStored env raw = Some e).
Proof.
  unfold Browser.getCachedStreetView.
  destruct (Browser.hasWindow env); cbn [negb]; [|discriminate].
  pose proof (cacheKey_not_testKey lat lng bearing) as Hk.
  set (key := Browser.cacheKeyOf lat lng bearing) in *.
  destruct (Browser.memoryCache st !! key) as [e|] eqn:Hm.
  - destruct (Browser.isExpired now e) eqn:Hx; [discriminate|].
    intros [= <-]. exists e. apply isExpired_fresh in Hx.
    split; [reflexivity|]. split; [exact Hx|]. now left.
  - rewrite (loadFromStorage_cases env key st Hk). cbv zeta.
    destruct (tier2Available env st); [|discriminate].
    destruct (Browser.localStorage st !! key) as [raw|] eqn:Hraw; [|discriminate].
    destruct (String.eqb raw ""); [discriminate|].
    destruct (decodeStored env raw) as [e|] eqn:Hdec; [|discriminate].
    destruct (Browser.isExpired now e) eqn:Hx; [discriminate|].
    intros [= <-]. exists e. apply isExpired_fresh in Hx.
    split; [reflexivity|]. split; [exact Hx|]. right. now exists raw.
Qed.

Lemma fetchStreetView_hit (env : Browser.Env) (call : Browser.Call) (written : Z)
    (lat lng bearing : number) (p : StreetViewPayload) (st : Browser.State) :
  Browser.hasWindow env = true ->
  Browser.abortedAtEntry call = false ->
  Browser.nowAtRead call - written <= Browser.CACHE_TTL_MS ->
  let st1 := Browser.setCachedStreetView env written lat lng
               (Browser.normalizeBearing bearing) (Browser.payloadToJson p) st in
  Browser.fetchStreetView env call lat lng bearing st1 =
  (Browser.Resolved (Browser.payloadToJson p), st1).
Proof.
  intros Hwin Hab Hage. cbv zeta. unfold Browser.fetchStreetView. rewrite Hab.
  rewrite (browser_read_after_write env written (Browser.nowAtRead call) lat lng
             (Browser.normalizeBearing bearing) (Browser.payloadToJson p) st Hwin).
  apply Z.ltb_ge in Hage. rewrite Hage. reflexivity.
Qed.

Lemma GET_hit (env : Route.Env) (request : Route.Request) (written : Z) (nb : number)
    (p : StreetViewPayload) (w : ServerCache.Store) (log : list (number * number)) :
  accepted env request = true ->
  Route.normalizedBearingOf (Route.bearingParam request) = Some nb ->
  Route.nowAtRead env - written <= ServerCache.CACHE_TTL_MS ->
  let w1 := ServerCache.setCachedStreetView written (latOf request) (lngOf request) nb p w in
  Route.GET env request (Route.mkWorld w1 log) =
  (Route.mkResponse 200 (Route.PayloadBody p), Route.mkWorld w1 log).
Proof.
  intros Hacc Hnb Hage. cbv zeta.
  unfold accepted, coordinatesMissing, tokenMissing, coordinatesNotFinite in Hacc.
  unfold Route.GET. fold (latOf request) (lngOf request).
  destruct (Route.missing (Route.latParam request) || Route.missing (Route.lngParam request));
    [discriminate|].
  destruct (Route.missing (Route.accessToken env)); [discriminate|].
  destruct (negb (isFinite (latOf request)) || negb (isFinite (lngOf request)));
    [discriminate|].
  rewrite Hnb. cbn [Route.cache Route.upstreamLog].
  destruct (server_read_after_write written (Route.nowAtRead env) (latOf request)
              (lngOf request) nb p w) as [Hfst Hsnd].
  destruct (ServerCache.getCachedStreetView _ _ _ _ _) as [cached c1].
  cbn [fst snd] in Hfst, Hsnd. rewrite (Hsnd Hage).
  apply Z.ltb_ge in Hage. rewrite Hage in Hfst. subst cached. reflexivity.
Qed.

(** C6.  In both caches an entry written more than [CACHE_TTL_MS]
    (7 days) before the read is never returned, and whatever a read returns
    comes from an entry whose age is within the TTL; an entry written within
    the TTL is returned with the stored payload, whatever its frame list
    (also the empty one), and then [fetchStreetView] and the route's [GET]
    answer from the cache and leave the log of upstream queries as it was. *)
Theorem cached_entries_respect_ttl
    (env : Browser.Env) (st : Browser.State) (w : ServerCache.Store)
    (written now : Z) (lat lng bearing : number) (p : StreetViewPayload) :
  Browser.hasWindow env = true ->
  let st1 := Browser.setCachedStreetView env written lat lng bearing
               (Browser.payloadToJson p) st in
  let w1 := ServerCache.setCachedStreetView written lat lng bearing p w in
  (ServerCache.CACHE_TTL_MS < now - written ->
     fst (Browser.getCachedStreetView env now lat lng bearing st1) = None /\
     fst (ServerCache.getCachedStreetView now lat lng bearing w1) = None) /\
  (now - written <= ServerCache.CACHE_TTL_MS ->
     fst (Browser.getCachedStreetView env now lat lng bearing st1)
       = Some (Browser.payloadToJson p) /\
     fst (ServerCache.getCachedStreetView now lat lng bearing w1) = Some p) /\
  (forall v, fst (Browser.getCachedStreetView env now lat lng bearing st) = Some v ->
     exists e, Browser.payload e = v /\ (age now e <= TTL)%Q /\
       (Browser.memoryCache st !! Browser.cacheKeyOf lat lng bearing = Some e \/
        exists raw, Browser.localStorage st !! Browser.cacheKeyOf lat lng bearing = Some raw /\
                    decodeStored env raw = Some e)) /\
  (forall v, fst (ServerCache.getCachedStreetView now lat lng bearing w) = Some v ->
     exists e,
       ServerCache.entries (fst (ServerCache.loadCache w))
         !! ServerCache.getKey lat lng (ServerCache.normalizeBearing bearing) = Some e /\
       now - ServerCache.cachedAt e <= ServerCache.CACHE_TTL_MS /\
       v = mkPayload (ServerCache.images e) (ServerCache.preferredIndex e)) /\
  (forall call,
     Browser.abortedAtEntry call = false ->
     Browser.nowAtRead call - written <= Browser.CACHE_TTL_MS ->
     let st2 := Browser.setCachedStreetView env written lat lng
                  (Browser.normalizeBearing bearing) (Browser.payloadToJson p) st in
     fst (Browser.fetchStreetView env call lat lng bearing st2)
       = Browser.Resolved (Browser.payloadToJson p) /\
     Browser.upstreamLog (snd (Browser.fetchStreetView env call lat lng bearing st2))
       = Browser.upstreamLog st) /\
  (forall renv request log nb,
     accepted renv request = true ->
     Route.normalizedBearingOf (Route.bearingParam request) = Some nb ->
     Route.nowAtRead renv - written <= ServerCache.CACHE_TTL_MS ->
     let w2 := ServerCache.setCachedStreetView written (latOf request) (lngOf request)
                 nb p w in
     Route.body (fst (Route.GET renv request (Route.mkWorld w2 log))) = Route.PayloadBody p /\
     Route.upstreamLog (snd (Route.GET renv request (Route.mkWorld w2 log))) = log).
Proof.
  intros Hwin. cbv zeta.
  pose proof (browser_read_after_write env written now lat lng bearing
                (Browser.payloadToJson p) st Hwin) as Hb. cbv zeta in Hb.
  destruct (server_read_after_write written now lat lng bearing p w) as [Hs _].
  change Browser.CACHE_TTL_MS with ServerCache.CACHE_TTL_MS in Hb.
  split; [|split; [|split; [|split; [|split]]]].
  - intros Hold. apply Z.ltb_lt in Hold. rewrite Hb, Hs, Hold. auto.
  - intros Hfresh. apply Z.ltb_ge in Hfresh. rewrite Hb, Hs, Hfresh. auto.
  - apply browser_read_fresh.
  - apply server_read_fresh.
  - intros call Hab Hage.
    rewrite (fetchStreetView_hit env call written lat lng bearing p st Hwin Hab Hage).
    cbn [fst snd]. split; [reflexivity|apply browser_set_log].
  - intros renv request log nb Hacc Hnb Hage.
    rewrite (GET_hit renv request written nb p w log Hacc Hnb Hage). auto.
Qed.

(** An empty result written at time 0 for Times Square: read one hour
    later it is returned; read eight days later it is not. *)
Lemma cached_entries_respect_ttl_witness :
  let st1 := Browser.setCachedStreetView demoBrowser 0 (fst timesSquare) (snd timesSquare)
               (Fin 0) (Browser.payloadToJson emptyPayload)
               (Browser.mkState ∅ ∅ Browser.Unprobed []) in
  fst (Browser.getCachedStreetView demoBrowser HOUR (fst timesSquare) (snd timesSquare)
         (Fin 0) st1) = Some (Browser.payloadToJson emptyPayload) /\
  fst (Browser.getCachedStreetView demoBrowser (8 * DAY) (fst timesSquare) (snd timesSquare)
         (Fin 0) st1) = None.
Proof.
  cbv zeta. split.
  - apply (cached_entries_respect_ttl demoBrowser (Browser.mkState ∅ ∅ Browser.Unprobed [])
             (ServerCache.mkStore None None) 0 HOUR (fst timesSquare) (snd timesSquare)
             (Fin 0) emptyPayload eq_refl).
    vm_compute. discriminate.
  - apply (cached_entries_respect_ttl demoBrowser (Browser.mkState ∅ ∅ Browser.Unprobed [])
             (ServerCache.mkStore None None) 0 (8 * DAY) (fst timesSquare) (snd timesSquare)
             (Fin 0) emptyPayload eq_refl).
    vm_compute. reflexivity.
Defined.

End CacheFacts.

(* ===================================================================== *)
(** * The selector inside the two handlers                                *)
(* ===================================================================== *)

Section SelectionInHandlers.
Import Num Json Imagery Spec.

(** The route's bearing, when it has one, is a finite number. *)
Lemma route_bearing_rational (bearingParam : option string) :
  exists b : option Q, Route.normalizedBearingOf bearingParam = option_map Fin b.
Proof.
  destruct (Route.normalizedBearingOf bearingParam) as [nb|] eqn:E.
  - destruct (normalizedBearingOf_finite _ _ E) as [q ->]. now exists (Some q).
  - now exists None.
Qed.





End SelectionInHandlers.

(* ===================================================================== *)
(** * Further properties of the street game                               *)
(* ===================================================================== *)

Section GameFacts.
Import Grid Game Aux Imagery.

(** X1.  Turning always rotates the heading, blocked or not: four right
    turns (or four left turns) restore the heading, a left turn undoes the
    heading change of a right turn and conversely, and two turns the same
    way face the opposite heading. *)
Theorem turns_cycle_the_heading (s : NavState) :
  heading (handleTurn right (handleTurn right (handleTurn right (handleTurn right s))))
    = heading s /\
  heading (handleTurn left (handleTurn left (handleTurn left (handleTurn left s))))
    = heading s /\
  heading (handleTurn left (handleTurn right s)) = heading s /\
  heading (handleTurn right (handleTurn left s)) = heading s /\
  heading (handleTurn right (handleTurn right s)) = oppositeHeading (heading s) /\
  heading (handleTurn left (handleTurn left s)) = oppositeHeading (heading s) /\
  oppositeHeading (oppositeHeading (heading s)) = heading s.
Proof.
  rewrite !handleTurn_heading. destruct (heading s); repeat split; reflexivity.
Qed.

Lemma clampToBounds_inBounds_id (p : GridPosition) :
  inBounds p -> clampToBounds p = p.
Proof.
  destruct p as [st av].
  unfold clampToBounds, inBounds, minStreet, maxStreet, minAvenue, maxAvenue. cbn.
  intros H. f_equal; lia.
Qed.

(** X2.  [clampToBounds] always lands inside the grid, leaves exactly the
    in-bounds positions where they are, and clamping twice is clamping
    once. *)
Theorem clampToBounds_saturates (p : GridPosition) :
  inBounds (clampToBounds p) /\
  (clampToBounds p = p <-> inBounds p) /\
  clampToBounds (clampToBounds p) = clampToBounds p.
Proof.
  destruct p as [st av].
  unfold clampToBounds, inBounds, minStreet, maxStreet, minAvenue, maxAvenue. cbn.
  split; [lia|]. split; [split|].
  - intros [= Hs Ha]. lia.
  - intros H. f_equal; lia.
  - f_equal; lia.
Qed.

Lemma candidate_one_block (p : GridPosition) (h : Heading) :
  blocksBetween (candidateOf p h) p = 1.
Proof.
  destruct p as [st av]. unfold blocksBetween, candidateOf.
  destruct h; cbn; lia.
Qed.

Lemma clamp_blocked_candidate (p : GridPosition) (h : Heading) :
  inBounds p -> isWithinBounds (candidateOf p h) = false ->
  clampToBounds (candidateOf p h) = p.
Proof.
  intros Hin Hout. apply isWithinBounds_false in Hout.
  destruct p as [st av].
  unfold clampToBounds, inBounds, candidateOf, minStreet, maxStreet, minAvenue,
    maxAvenue in *.
  destruct h; cbn in *; f_equal; lia.
Qed.

(** X3.  From an in-bounds state the "next intersection" shown in the HUD
    is the label of the place where a forward move ends: the corner ahead
    when the way is open, the current corner when it is blocked. *)
Theorem nextIntersection_is_forward_destination (s : NavState) :
  inBounds (position s) ->
  nextIntersection s = describeIntersection (position (handleMoveForward s)).
Proof.
  intros Hin. unfold nextIntersection. cbv zeta.
  change (mkGrid _ _) with (candidateOf (position s) (heading s)).
  rewrite handleMoveForward_position. unfold canMove.
  destruct (isWithinBounds (candidateOf (position s) (heading s))) eqn:E.
  - apply isWithinBounds_spec in E. now rewrite clampToBounds_inBounds_id.
  - now rewrite clamp_blocked_candidate.
Qed.

Lemma nextIntersection_is_forward_destination_witness :
  nextIntersection (mkNav (mkGrid 55 0) north "") = mkLabel "W 100th St" "7th Ave" /\
  nextIntersection (mkNav (mkGrid 0 0) north "") = mkLabel "W 46th St" "7th Ave".
Proof.
  split.
  - rewrite (nextIntersection_is_forward_destination (mkNav (mkGrid 55 0) north ""));
      [reflexivity|].
    apply isWithinBounds_spec. reflexivity.
  - rewrite (nextIntersection_is_forward_destination (mkNav (mkGrid 0 0) north ""));
      [reflexivity|].
    apply isWithinBounds_spec. reflexivity.
Defined.

Lemma step_position (a : Action) (s : NavState) :
  position (step a s) =
  let h := match a with
           | MoveForward => heading s
           | MoveBackward => oppositeHeading (heading s)
           | TurnLeft => rotateHeading (heading s) left
           | TurnRight => rotateHeading (heading s) right
           end in
  if flagOf a (availableMoves s) then candidateOf (position s) h else position s.
Proof.
  destruct a; cbn [step flagOf availableMoves forward backward mleft mright].
  - apply handleMoveForward_position.
  - apply handleMoveBackward_position.
  - apply handleTurn_position.
  - apply handleTurn_position.
Qed.

(** X4.  An action changes the position exactly when the availability
    flag shown for it is set, and then the new position is one block away;
    every action moves by at most one block. *)
Theorem moves_follow_availability (a : Action) (s : NavState) :
  (position (step a s) <> position s <-> flagOf a (availableMoves s) = true) /\
  (flagOf a (availableMoves s) = true -> blocksBetween (position (step a s)) (position s) = 1) /\
  blocksBetween (position (step a s)) (position s) <= 1.
Proof.
  rewrite step_position. cbv zeta.
  destruct (flagOf a (availableMoves s)).
  - split; [|split].
    + split; [reflexivity|]. intros _ Heq.
      match type of Heq with candidateOf ?p ?h = _ =>
        pose proof (candidate_one_block p h) as H1 end.
      rewrite Heq in H1. unfold blocksBetween in H1. lia.
    + intros _. apply candidate_one_block.
    + rewrite candidate_one_block. lia.
  - split; [|split].
    + split; [intros H; now destruct H | discriminate].
    + discriminate.
    + unfold blocksBetween. lia.
Qed.

Lemma moves_follow_availability_witness :
  blocksBetween
    (position (step MoveForward (mkNav (mkGrid 0 0) north "")))
    (position (mkNav (mkGrid 0 0) north "")) = 1.
Proof.
  apply (moves_follow_availability MoveForward (mkNav (mkGrid 0 0) north "")).
  vm_compute. reflexivity.
Defined.

Lemma handleKeyDown_cases (key : string) (s : NavState) :
  handleKeyDown key s = s \/ exists a, handleKeyDown key s = step a s.
Proof.
  unfold handleKeyDown.
  destruct (_ || _ || _); [right; now exists MoveForward|].
  destruct (_ || _ || _); [right; now exists MoveBackward|].
  destruct (_ || _ || _); [right; now exists TurnLeft|].
  destruct (_ || _ || _); [right; now exists TurnRight|].
  now left.
Qed.

Lemma handleKeyDown_inBounds (key : string) (s : NavState) :
  inBounds (position s) -> inBounds (position (handleKeyDown key s)).
Proof.
  intros Hin. destruct (handleKeyDown_cases key s) as [-> | [a ->]]; [exact Hin|].
  destruct (step_position_cases a s) as [-> | (h & -> & Hb)]; [exact Hin|].
  now apply isWithinBounds_spec.
Qed.

(** X5.  Whatever keys are pressed, in whatever order, a session that
    starts inside the grid stays inside the grid; a key that is not bound
    to an action changes nothing. *)
Theorem pressKeys_stays_in_bounds (keys : list string) (s : NavState) :
  inBounds (position s) ->
  inBounds (position (pressKeys keys s)) /\
  (forall key,
     ~ In key ["ArrowUp"; "w"; "W"; "ArrowDown"; "s"; "S";
               "ArrowLeft"; "a"; "A"; "ArrowRight"; "d"; "D"]%string ->
     handleKeyDown key s = s).
Proof.
  intros Hin. split.
  - unfold pressKeys. revert s Hin.
    induction keys as [|key keys IH]; intros s Hin; cbn [fold_left]; [exact Hin|].
    apply IH. now apply handleKeyDown_inBounds.
  - intros key Hkey. unfold handleKeyDown.
    repeat match goal with
           | |- context [String.eqb key ?k] =>
               let E := fresh in
               destruct (String.eqb key k) eqn:E;
               [apply String.eqb_eq in E; exfalso; apply Hkey; subst key; cbn; tauto|]
           end.
    reflexivity.
Qed.

Lemma pressKeys_stays_in_bounds_witness :
  inBounds (position (pressKeys ["w"; "ArrowUp"; "d"; "x"; "A"; "S"]%string
                        (mkNav (mkGrid 54 6) north ""))).
Proof.
  apply (pressKeys_stays_in_bounds ["w"; "ArrowUp"; "d"; "x"; "A"; "S"]%string
           (mkNav (mkGrid 54 6) north "")).
  apply isWithinBounds_spec. reflexivity.
Defined.

End GameFacts.

Section GameFacts2.
Import Grid Game Aux Imagery Spec.

Lemma injectiveOn_spec (f : Z -> string) (l : list Z) :
  injectiveOn f l = true ->
  forall a b, In a l -> In b l -> f a = f b -> a = b.
Proof.
  unfold injectiveOn. rewrite List.forallb_forall. intros H a b Ha Hb Hf.
  specialize (H a Ha). rewrite List.forallb_forall in H. specialize (H b Hb).
  apply String.eqb_eq in Hf. rewrite Hf in H. cbn in H. now apply Z.eqb_eq.
Qed.

Lemma zrange_In (n : nat) : forall lo x, lo <= x < lo + Z.of_nat n -> In x (zrange lo n).
Proof.
  induction n as [|n IH]; intros lo x Hx; [lia|].
  cbn [zrange]. destruct (Z.eq_dec lo x) as [->|Hne]; [now left|].
  right. apply IH. lia.
Qed.

Lemma avenue_labels_distinct :
  injectiveOn (fun a => formatAvenueLabel (mkGrid 0 a)) avenueRange = true.
Proof. vm_compute. reflexivity. Qed.

Lemma street_labels_distinct :
  forallb (fun a => injectiveOn (fun s => formatStreetLabel (mkGrid s a)) streetRange)
    avenueRange = true.
Proof. vm_compute. reflexivity. Qed.

(** X6.  Inside the grid the pair of street signs identifies the
    intersection: two in-bounds positions with the same label are the same
    position. *)
Theorem labels_identify_the_intersection (p q : GridPosition) :
  inBounds p -> inBounds q ->
  describeIntersection p = describeIntersection q -> p = q.
Proof.
  intros Hp Hq Heq. destruct p as [ps pa], q as [qs qa].
  unfold inBounds, minStreet, maxStreet, minAvenue, maxAvenue in Hp, Hq. cbn in Hp, Hq.
  injection Heq as Hs Ha.
  assert (Hpa : In pa avenueRange) by (apply zrange_In; unfold minAvenue; cbn; lia).
  assert (Hqa : In qa avenueRange) by (apply zrange_In; unfold minAvenue; cbn; lia).
  assert (Eav : pa = qa).
  { apply (injectiveOn_spec _ _ avenue_labels_distinct pa qa Hpa Hqa). exact Ha. }
  subst qa. f_equal.
  pose proof street_labels_distinct as Hall.
  rewrite List.forallb_forall in Hall. specialize (Hall pa Hpa).
  apply (injectiveOn_spec _ _ Hall ps qs).
  - apply zrange_In; unfold minStreet; cbn; lia.
  - apply zrange_In; unfold minStreet; cbn; lia.
  - exact Hs.
Qed.

Lemma labels_identify_the_intersection_witness :
  describeIntersection (mkGrid 10 (-3)) <> describeIntersection (mkGrid 10 (-2)).
Proof.
  intros H.
  assert (E : mkGrid 10 (-3) = mkGrid 10 (-2)).
  { apply (labels_identify_the_intersection (mkGrid 10 (-3)) (mkGrid 10 (-2)));
      [apply isWithinBounds_spec; reflexivity | apply isWithinBounds_spec; reflexivity
      | exact H]. }
  discriminate E.
Defined.





End GameFacts2.

Section FrameFacts.
Import Grid Game Aux Json Imagery Spec.

(** X8.  The frame shown first.  For any response it is a valid index of
    a non-empty frame list and 0 for an empty one; for a payload produced
    by the selector the clamp changes nothing, so the frame shown first is
    the selector's preferred frame. *)
Theorem firstFrameIndex_is_preferred
    (data : StreetViewPayload) (bearing : option Q) (upstreamImages : list json) :
  (images data <> [] -> 0 <= firstFrameIndex data < Z.of_nat (length (images data))) /\
  (images data = [] -> firstFrameIndex data = 0) /\
  firstFrameIndex (selectFrames (knownOf bearing) (bearingOf bearing) upstreamImages)
  = preferredIndex (selectFrames (knownOf bearing) (bearingOf bearing) upstreamImages).
Proof.
  unfold firstFrameIndex. split; [|split].
  - intros Hne. destruct (images data) as [|f fs]; [congruence|].
    cbn [length]. destruct (0 <? Z.of_nat (S (length fs))) eqn:E; lia.
  - intros ->. reflexivity.
  - pose proof (selectFrames_spec bearing upstreamImages) as H. cbv zeta in H.
    destruct H as (_ & Hrange & Hzero & _).
    set (p := selectFrames (knownOf bearing) (bearingOf bearing) upstreamImages) in *.
    destruct (images p) as [|f fs] eqn:E.
    + cbn. symmetry. apply Hzero. right. constructor.
    + assert (Hr : 0 <= preferredIndex p < Z.of_nat (length (f :: fs)))
        by (apply Hrange; discriminate).
      destruct (0 <? Z.of_nat (length (f :: fs))) eqn:E0; [lia|].
      apply Z.ltb_ge in E0. cbn [length] in *. lia.
Qed.

Lemma firstFrameIndex_is_preferred_witness :
  firstFrameIndex (mkPayload [mkFrame "u" None None None; mkFrame "v" None None None] 7) = 1.
Proof.
  assert (H : 0 <= firstFrameIndex
                     (mkPayload [mkFrame "u" None None None; mkFrame "v" None None None] 7) < 2).
  { apply (firstFrameIndex_is_preferred
             (mkPayload [mkFrame "u" None None None; mkFrame "v" None None None] 7)
             None []). discriminate. }
  reflexivity.
Defined.

Lemma advanceFrame_step (n x : Z) :
  1 < n -> 0 <= x < n -> advanceFrame n x = (x + 1) mod n.
Proof.
  intros Hn Hx. unfold advanceFrame.
  destruct (n <=? 1) eqn:E; [apply Z.leb_le in E; lia|].
  apply Z.rem_mod_nonneg; lia.
Qed.

(** X9.  The auto-advance timer.  With more than one frame, [k] ticks
    from a valid index [i] show frame [(i + k) mod n]: the index stays
    valid, every frame is reached, and [n] ticks come back to [i].  With at
    most one frame the index never changes. *)
Theorem advanceFrame_cycles (n i : Z) (k : nat) :
  (1 < n -> 0 <= i < n ->
     Nat.iter k (advanceFrame n) i = (i + Z.of_nat k) mod n /\
     0 <= Nat.iter k (advanceFrame n) i < n /\
     Nat.iter (Z.to_nat n) (advanceFrame n) i = i) /\
  (n <= 1 -> Nat.iter k (advanceFrame n) i = i).
Proof.
  split.
  - intros Hn Hi.
    assert (Hiter : forall j, Nat.iter j (advanceFrame n) i = (i + Z.of_nat j) mod n).
    { induction j as [|j IH].
      - cbn. rewrite Z.add_0_r. symmetry. apply Z.mod_small. lia.
      - rewrite Nat.iter_succ, IH.
        rewrite advanceFrame_step by (try apply Z.mod_pos_bound; lia).
        rewrite Zplus_mod_idemp_l. f_equal. lia. }
    split; [apply Hiter|]. split.
    + rewrite Hiter. apply Z.mod_pos_bound. lia.
    + rewrite Hiter, Z2Nat.id by lia.
      rewrite <- (Z.mul_1_l n) at 1. rewrite Z.mod_add by lia.
      apply Z.mod_small. lia.
  - intros Hn. induction k as [|k IH]; [reflexivity|].
    rewrite Nat.iter_succ, IH. unfold advanceFrame.
    apply Z.leb_le in Hn. now rewrite Hn.
Qed.

Lemma advanceFrame_cycles_witness :
  Nat.iter 5 (advanceFrame 3) 2 = 1.
Proof.
  destruct (advanceFrame_cycles 3 2 5) as [H _].
  destruct H as (H & _ & _); [lia|lia|].
  rewrite H. reflexivity.
Defined.

End FrameFacts.

(* ===================================================================== *)
(** * Further properties of bearings and cache keys                       *)
(* ===================================================================== *)

Section BearingFacts.
Import Grid Num Aux Spec.

Lemma sameDirection_refl (a : Q) : sameDirection a a.
Proof. exists 0. cbn. ring. Qed.



Lemma sameDirection_eq (a b : Q) : (a == b)%Q -> sameDirection a b.
Proof. intros H. exists 0. change (inject_Z 0) with 0%Q. lra. Qed.









End BearingFacts.

Section KeyFacts.
Import Grid Num Aux Spec.




End KeyFacts.

Section KeyFacts2.
Import Grid Num Aux Spec.








End KeyFacts2.

(* ===================================================================== *)
(** * Further properties of the server file cache                         *)
(* ===================================================================== *)

Section ServerCacheFacts.
Import Num Imagery Aux Spec ServerCache.

(** The result of a read, in terms of the loaded entries. *)
Lemma server_get_fst (now : Z) (lat lng bearing : number) (w : Store) :
  fst (getCachedStreetView now lat lng bearing w) =
  match entries (fst (loadCache w)) !! getKey lat lng (normalizeBearing bearing) with
  | Some e => if CACHE_TTL_MS <? now - cachedAt e then None
              else Some (mkPayload (images e) (preferredIndex e))
  | None => None
  end.
Proof.
  unfold getCachedStreetView. destruct (loadCache w) as [c w1]. cbn [fst].
  destruct (entries c !! _) as [e|]; [|reflexivity].
  destruct (CACHE_TTL_MS <? now - cachedAt e); reflexivity.
Qed.

Lemma server_set_loaded (written : Z) (lat lng bearing : number) (p : StreetViewPayload)
    (w : Store) :
  let key := getKey lat lng (normalizeBearing bearing) in
  let e := mkEntry lat lng (normalizeBearing bearing) written
             (Imagery.images p) (Imagery.preferredIndex p) in
  let c := mkShape (version (fst (loadCache w))) (<[key := e]> (entries (fst (loadCache w)))) in
  setCachedStreetView written lat lng bearing p w =
  mkStore (Some c) (Some (mkPartial (Some (version c)) (Some (entries c)))).
Proof.
  cbv zeta. unfold setCachedStreetView. destruct (loadCache w) as [c0 w0]. reflexivity.
Qed.

Lemma loadCache_version (w : Store) :
  serverWellTyped w -> version (fst (loadCache w)) = CACHE_VERSION.
Proof.
  intros Hw. unfold loadCache. destruct (cacheStore w) as [c|] eqn:E.
  - now apply Hw.
  - destruct (cacheFile w) as [[[v|] [es|]]|]; cbn [pversion pentries]; try reflexivity.
    destruct (v =? CACHE_VERSION); reflexivity.
Qed.

(** X13.  Writes to the server cache are local to their key and the last
    one wins: a write under one key does not change what a read under
    another key returns, and after two writes under the same key a read
    within the TTL of the second returns the second payload. *)
Theorem server_write_local_last_wins
    (t1 t2 now : Z) (lat lng bearing lat' lng' bearing' : number)
    (p1 p2 : StreetViewPayload) (w : Store) :
  (getKey lat' lng' (normalizeBearing bearing') <> getKey lat lng (normalizeBearing bearing) ->
     fst (getCachedStreetView now lat' lng' bearing'
            (setCachedStreetView t1 lat lng bearing p1 w))
     = fst (getCachedStreetView now lat' lng' bearing' w)) /\
  fst (getCachedStreetView now lat lng bearing
         (setCachedStreetView t2 lat lng bearing p2
            (setCachedStreetView t1 lat lng bearing p1 w)))
  = (if CACHE_TTL_MS <? now - t2 then None else Some p2).
Proof.
  split.
  - intros Hne. rewrite !server_get_fst, server_set_loaded. cbv zeta.
    set (c0 := fst (loadCache w)).
    unfold loadCache. cbn [cacheStore fst entries].
    now rewrite lookup_insert_ne by congruence.
  - destruct (server_read_after_write t2 now lat lng bearing p2
                (setCachedStreetView t1 lat lng bearing p1 w)) as [H _].
    exact H.
Qed.

Lemma server_write_local_last_wins_witness :
  fst (getCachedStreetView HOUR (fst timesSquare) (snd timesSquare) (Fin 90)
         (setCachedStreetView 0 (fst timesSquare) (snd timesSquare) (Fin 0) emptyPayload
            (mkStore None None))) = None.
Proof.
  destruct (server_write_local_last_wins 0 0 HOUR (fst timesSquare) (snd timesSquare) (Fin 0)
              (fst timesSquare) (snd timesSquare) (Fin 90) emptyPayload emptyPayload
              (mkStore None None)) as [H _].
  rewrite H; [reflexivity|]. vm_compute. discriminate.
Defined.

(** X14.  The cache file carries entries across a restart of the server
    process, and only a file of the current version does: after a write and
    a restart, a read within the TTL still returns the payload; a process
    that starts with no file, or with a file of another version or without
    entries, misses on every read. *)
Theorem server_cache_survives_restart
    (written now : Z) (lat lng bearing : number) (p : StreetViewPayload) (w : Store) :
  (serverWellTyped w -> now - written <= CACHE_TTL_MS ->
     fst (getCachedStreetView now lat lng bearing
            (serverRestart (setCachedStreetView written lat lng bearing p w))) = Some p) /\
  (cacheStore w = None ->
     (forall f, cacheFile w = Some f ->
        pversion f <> Some CACHE_VERSION \/ pentries f = None) ->
     fst (getCachedStreetView now lat lng bearing w) = None).
Proof.
  split.
  - intros Hw Hfresh. rewrite server_get_fst, server_set_loaded. cbv zeta.
    pose proof (loadCache_version w Hw) as Hv.
    set (c0 := fst (loadCache w)) in *.
    unfold serverRestart, loadCache. cbn [cacheStore cacheFile pversion pentries version entries].
    rewrite Hv, Z.eqb_refl. cbn [fst entries].
    rewrite lookup_insert_eq. cbn [cachedAt images preferredIndex].
    apply Z.ltb_ge in Hfresh. rewrite Hfresh. now destruct p.
  - intros Hnone Hfile. rewrite server_get_fst. unfold loadCache. rewrite Hnone.
    destruct (cacheFile w) as [f|]; [|reflexivity].
    destruct (Hfile f eq_refl) as [Hv | He].
    + destruct (pversion f) as [v|], (pentries f) as [es|]; try reflexivity.
      destruct (v =? CACHE_VERSION) eqn:E; [|reflexivity].
      apply Z.eqb_eq in E. subst v. now destruct Hv.
    + rewrite He. destruct (pversion f); reflexivity.
Qed.

Lemma server_cache_survives_restart_witness :
  fst (getCachedStreetView HOUR (fst timesSquare) (snd timesSquare) (Fin 90)
         (serverRestart
            (setCachedStreetView 0 (fst timesSquare) (snd timesSquare) (Fin 90) emptyPayload
               (mkStore None None)))) = Some emptyPayload.
Proof.
  apply (server_cache_survives_restart 0 HOUR (fst timesSquare) (snd timesSquare) (Fin 90)
           emptyPayload (mkStore None None)).
  - intros c Hc. discriminate Hc.
  - vm_compute. discriminate.
Defined.

(** X15.  A read that finds an expired entry evicts it for good: the
    entry is deleted from the loaded cache and from the cache file, so every
    later read of the key misses, at any clock value, with or without a
    restart in between. *)
Theorem server_expired_read_evicts
    (now later : Z) (lat lng bearing : number) (w : Store) (e : CacheEntry) :
  entries (fst (loadCache w)) !! getKey lat lng (normalizeBearing bearing) = Some e ->
  CACHE_TTL_MS < now - cachedAt e ->
  let w' := snd (getCachedStreetView now lat lng bearing w) in
  fst (getCachedStreetView now lat lng bearing w) = None /\
  fst (getCachedStreetView later lat lng bearing w') = None /\
  fst (getCachedStreetView later lat lng bearing (serverRestart w')) = None.
Proof.
  intros He Hold. cbv zeta.
  assert (Hw' : snd (getCachedStreetView now lat lng bearing w) =
                let c := mkShape (version (fst (loadCache w)))
                           (delete (getKey lat lng (normalizeBearing bearing))
                              (entries (fst (loadCache w)))) in
                mkStore (Some c) (Some (mkPartial (Some (version c)) (Some (entries c))))).
  { unfold getCachedStreetView. destruct (loadCache w) as [c0 w0]. cbn [fst] in He |- *.
    rewrite He. apply Z.ltb_lt in Hold. rewrite Hold. reflexivity. }
  split; [|split].
  - rewrite server_get_fst, He. apply Z.ltb_lt in Hold. now rewrite Hold.
  - rewrite Hw', server_get_fst. cbv zeta. set (c0 := fst (loadCache w)).
    unfold loadCache. cbn [cacheStore fst entries].
    now rewrite lookup_delete_eq.
  - rewrite Hw', server_get_fst. cbv zeta. set (c0 := fst (loadCache w)).
    unfold serverRestart, loadCache.
    cbn [cacheStore cacheFile pversion pentries version entries].
    destruct (version c0 =? CACHE_VERSION); cbn [fst entries].
    + now rewrite lookup_delete_eq.
    + now rewrite lookup_empty.
Qed.

Lemma server_expired_read_evicts_witness :
  let w := setCachedStreetView 0 (fst timesSquare) (snd timesSquare) (Fin 90) emptyPayload
             (mkStore None None) in
  fst (getCachedStreetView HOUR (fst timesSquare) (snd timesSquare) (Fin 90)
         (snd (getCachedStreetView (8 * DAY) (fst timesSquare) (snd timesSquare) (Fin 90) w)))
  = None.
Proof.
  cbv zeta.
  eapply (server_expired_read_evicts (8 * DAY) HOUR (fst timesSquare) (snd timesSquare) (Fin 90)
            (setCachedStreetView 0 (fst timesSquare) (snd timesSquare) (Fin 90) emptyPayload
               (mkStore None None))).
  - rewrite server_set_loaded. cbv zeta.
    set (c0 := fst (loadCache (mkStore None None))).
    unfold loadCache. cbn [cacheStore fst entries].
    apply lookup_insert_eq.
  - vm_compute. reflexivity.
Defined.

End ServerCacheFacts.

(* ===================================================================== *)
(** * Further properties of the browser cache and [fetchStreetView]       *)
(* ===================================================================== *)

Section BrowserCacheFacts.
Import Num Json Imagery Aux Spec Browser.

Lemma getPersistentStorage_probe (env : Env) (st : State) :
  persistentStorage (snd (getPersistentStorage env st)) =
  if fst (getPersistentStorage env st) then UseLocalStorage else NoStorage.
Proof.
  unfold getPersistentStorage.
  destruct (persistentStorage st) eqn:E; cbn [fst snd]; try exact E.
  destruct (hasWindow env); [|reflexivity].
  destruct (storageAccessible env); [|reflexivity]. cbn [negb].
  destruct (setItemThrows env _ _ _); reflexivity.
Qed.

Lemma getPersistentStorage_NoStorage (env : Env) (st : State) :
  persistentStorage st = NoStorage -> getPersistentStorage env st = (false, st).
Proof. intros H. unfold getPersistentStorage. now rewrite H. Qed.

Lemma removeFromStorage_other (env : Env) (key k : string) (st : State) :
  k <> key -> k <> testKey ->
  localStorage (removeFromStorage env key st) !! k = localStorage st !! k.
Proof.
  intros Hk Ht. unfold removeFromStorage.
  pose proof (getPersistentStorage_lookup env st k Ht) as H.
  destruct (getPersistentStorage env st) as [[] st1]; cbn in *; [|exact H].
  now rewrite lookup_delete_ne by congruence.
Qed.

Lemma saveToStorage_other (env : Env) (key k : string) (e : CacheEntry) (st : State) :
  k <> key -> k <> testKey ->
  localStorage (saveToStorage env key e st) !! k = localStorage st !! k.
Proof.
  intros Hk Ht. unfold saveToStorage.
  pose proof (getPersistentStorage_lookup env st k Ht) as H.
  destruct (getPersistentStorage env st) as [[] st1]; cbn in *; [|exact H].
  destruct (setItemThrows env _ _ _); [exact H|].
  cbn. now rewrite lookup_insert_ne by congruence.
Qed.

Lemma loadFromStorage_memory (env : Env) (key : string) (st : State) :
  memoryCache (snd (loadFromStorage env key st)) = memoryCache st.
Proof.
  unfold loadFromStorage.
  pose proof (getPersistentStorage_memory env st) as H.
  destruct (getPersistentStorage env st) as [[] st1]; cbn [negb fst snd] in *; [|exact H].
  destruct (localStorage st1 !! key) as [raw|]; [|exact H].
  destruct (String.eqb raw ""); [exact H|].
  destruct (JSON_parse env raw) as [parsed|]; [|exact H].
  destruct (validEntry parsed); exact H.
Qed.


Lemma loadFromStorage_other (env : Env) (key k : string) (st : State) :
  k <> key -> k <> testKey ->
  localStorage (snd (loadFromStorage env key st)) !! k = localStorage st !! k.
Proof.
  intros Hk Ht. unfold loadFromStorage.
  pose proof (getPersistentStorage_lookup env st k Ht) as H.
  destruct (getPersistentStorage env st) as [[] st1]; cbn [negb fst snd] in *; [|exact H].
  destruct (localStorage st1 !! key) as [raw|]; [|exact H].
  destruct (String.eqb raw ""); [exact H|].
  destruct (JSON_parse env raw) as [parsed|]; cbn;
    [destruct (validEntry parsed); cbn|]; try exact H;
    now rewrite lookup_delete_ne by congruence.
Qed.


(** X16.  A read or a write touches only its own key: every other key of
    tier 1 keeps its entry, and every other key of tier 2 except the probe's
    test key keeps its stored string. *)
Theorem browser_ops_touch_only_their_key
    (env : Env) (now : Z) (lat lng bearing : number) (v : json) (st : State) (k : string) :
  k <> cacheKeyOf lat lng bearing ->
  let afterRead := snd (getCachedStreetView env now lat lng bearing st) in
  let afterWrite := setCachedStreetView env now lat lng bearing v st in
  memoryCache afterRead !! k = memoryCache st !! k /\
  memoryCache afterWrite !! k = memoryCache st !! k /\
  (k <> testKey ->
     localStorage afterRead !! k = localStorage st !! k /\
     localStorage afterWrite !! k = localStorage st !! k).
Proof.
  intros Hk. cbv zeta. set (key := cacheKeyOf lat lng bearing) in *.
  split; [|split].
  - unfold getCachedStreetView. fold key.
    destruct (hasWindow env); cbn [negb]; [|reflexivity].
    destruct (memoryCache st !! key) as [e|] eqn:Hm.
    + destruct (isExpired now e); [|reflexivity]. cbn [snd].
      rewrite removeFromStorage_memory. cbn. now rewrite lookup_delete_ne by congruence.
    + pose proof (loadFromStorage_memory env key st) as H.
      destruct (loadFromStorage env key st) as [[e|] st1]; cbn [snd] in *;
        [|now rewrite H].
      destruct (isExpired now e); cbn [snd].
      * now rewrite removeFromStorage_memory, H.
      * cbn. rewrite lookup_insert_ne by congruence. now rewrite H.
  - unfold setCachedStreetView. fold key.
    destruct (hasWindow env); cbn [negb]; [|reflexivity].
    rewrite saveToStorage_memory. cbn. now rewrite lookup_insert_ne by congruence.
  - intros Ht. split.
    + unfold getCachedStreetView. fold key.
      destruct (hasWindow env); cbn [negb]; [|reflexivity].
      destruct (memoryCache st !! key) as [e|] eqn:Hm.
      * destruct (isExpired now e); [|reflexivity]. cbn [snd].
        now rewrite removeFromStorage_other.
      * pose proof (loadFromStorage_other env key k st Hk Ht) as H.
        destruct (loadFromStorage env key st) as [[e|] st1]; cbn [snd] in *;
          [|exact H].
        destruct (isExpired now e); cbn [snd].
        -- now rewrite removeFromStorage_other.
        -- exact H.
    + unfold setCachedStreetView. fold key.
      destruct (hasWindow env); cbn [negb]; [|reflexivity].
      now rewrite saveToStorage_other.
Qed.

Lemma browser_ops_touch_only_their_key_witness :
  memoryCache
    (setCachedStreetView demoBrowser 0 (fst timesSquare) (snd timesSquare) (Fin 0)
       (payloadToJson emptyPayload)
       (mkState {[ "other"%string := mkEntry JNull 0 2 ]} ∅ Unprobed []))
    !! "other"%string = Some (mkEntry JNull 0 2).
Proof.
  destruct (browser_ops_touch_only_their_key demoBrowser 0 (fst timesSquare)
              (snd timesSquare) (Fin 0) (payloadToJson emptyPayload)
              (mkState {[ "other"%string := mkEntry JNull 0 2 ]} ∅ Unprobed [])
              "other"%string) as (_ & H & _).
  - vm_compute. discriminate.
  - rewrite H. apply lookup_singleton_eq.
Defined.

End BrowserCacheFacts.

Section BrowserCacheFacts2.
Import Num Json Imagery Aux Spec Browser.

(** X17.  Where [window] does not exist (server-side rendering) the
    module is inert: a read misses and changes nothing, a write changes
    nothing, and [fetchStreetView] leaves both tiers and the probe state
    alone; whatever it resolves with then comes from one upstream query. *)
Theorem no_window_no_cache
    (env : Env) (call : Call) (now : Z) (lat lng bearing : number) (v : json) (st : State) :
  hasWindow env = false ->
  getCachedStreetView env now lat lng bearing st = (None, st) /\
  setCachedStreetView env now lat lng bearing v st = st /\
  sameCaches st (snd (fetchStreetView env call lat lng bearing st)) /\
  (forall value, fst (fetchStreetView env call lat lng bearing st) = Resolved value ->
     upstreamLog (snd (fetchStreetView env call lat lng bearing st))
     = upstreamLog st ++ [(lat, lng)]).
Proof.
  intros Hwin.
  assert (Hget : forall n la ln b s, getCachedStreetView env n la ln b s = (None, s))
    by (intros; unfold getCachedStreetView; now rewrite Hwin).
  assert (Hset : forall n la ln b x s, setCachedStreetView env n la ln b x s = s)
    by (intros; unfold setCachedStreetView; now rewrite Hwin).
  split; [apply Hget|]. split; [apply Hset|].
  unfold fetchStreetView.
  destruct (abortedAtEntry call); [split; [repeat split|discriminate]|].
  rewrite Hget. cbv beta iota zeta.
  destruct (missing (accessToken env)); [split; [repeat split|discriminate]|].
  destruct (abortedBeforeFetch call); [split; [repeat split|discriminate]|].
  destruct (upstream env lat lng) as [|ok code data].
  - destruct (abortedAfterFailure call); (split; [repeat split|discriminate]).
  - destruct ok; cbn [negb]; [|split; [repeat split|discriminate]].
    rewrite Hset. split; [repeat split|reflexivity].
Qed.

Lemma no_window_no_cache_witness :
  getCachedStreetView
    (mkEnv false true (fun _ _ _ => false) (fun _ => None) (fun _ => ""%string)
       (Some "token"%string) (fun _ _ => FetchThrows))
    0 (fst timesSquare) (snd timesSquare) (Fin 0)
    (setCachedStreetView
       (mkEnv false true (fun _ _ _ => false) (fun _ => None) (fun _ => ""%string)
          (Some "token"%string) (fun _ _ => FetchThrows))
       0 (fst timesSquare) (snd timesSquare) (Fin 0) (payloadToJson emptyPayload)
       (mkState ∅ ∅ Unprobed []))
  = (None, mkState ∅ ∅ Unprobed []).
Proof.
  apply (no_window_no_cache
           (mkEnv false true (fun _ _ _ => false) (fun _ => None) (fun _ => ""%string)
              (Some "token"%string) (fun _ _ => FetchThrows))
           (mkCall 0 0 false false false) 0 (fst timesSquare) (snd timesSquare) (Fin 0)
           (payloadToJson emptyPayload) (mkState ∅ ∅ Unprobed [])).
  reflexivity.
Defined.

Lemma probe_succeeds (env : Env) (st : State) :
  hasWindow env = true -> storageAccessible env = true ->
  (forall ls k raw, setItemThrows env ls k raw = false) ->
  persistentStorage st <> NoStorage ->
  tier2Available env st = true.
Proof.
  intros Hw Ha Hq Hp. unfold tier2Available, getPersistentStorage.
  destruct (persistentStorage st); [|congruence|reflexivity].
  now rewrite Hw, Ha, Hq.
Qed.

Lemma validEntry_entryToJson (v : json) (t : Q) :
  typeofObject v = true -> isNull v = false ->
  validEntry (entryToJson (mkEntry v t (inject_Z CACHE_VERSION)))
  = Some (mkEntry v t (inject_Z CACHE_VERSION)).
Proof.
  intros Ho Hn. unfold validEntry, entryToJson. cbn. now rewrite Ho, Hn.
Qed.

(** X18.  An entry written to the cache is found again after the page is
    loaded anew, through tier 2: provided storage is usable and accepts
    writes, [JSON.parse] reads back what [JSON.stringify] wrote for the
    entry, and the payload is an object, a read within the TTL after the
    reload returns the payload. *)
Theorem browser_entry_survives_reload
    (env : Env) (written now : Z) (lat lng bearing : number) (v : json) (st : State) :
  hasWindow env = true -> storageAccessible env = true ->
  (forall ls k raw, setItemThrows env ls k raw = false) ->
  persistentStorage st <> NoStorage ->
  JSON_stringify env (entryToJson (mkEntry v (inject_Z written) (inject_Z CACHE_VERSION)))
    <> ""%string ->
  JSON_parse env
    (JSON_stringify env (entryToJson (mkEntry v (inject_Z written) (inject_Z CACHE_VERSION))))
    = Some (entryToJson (mkEntry v (inject_Z written) (inject_Z CACHE_VERSION))) ->
  typeofObject v = true -> isNull v = false ->
  now - written <= CACHE_TTL_MS ->
  fst (getCachedStreetView env now lat lng bearing
         (pageReload (setCachedStreetView env written lat lng bearing v st))) = Some v.
Proof.
  intros Hw Ha Hq Hp Hne Hrt Ho Hn Hfresh.
  pose proof (cacheKey_not_testKey lat lng bearing) as Hk.
  set (key := cacheKeyOf lat lng bearing) in *.
  set (entry := mkEntry v (inject_Z written) (inject_Z CACHE_VERSION)) in *.
  set (raw := JSON_stringify env (entryToJson entry)) in *.
  assert (Hstored : localStorage (setCachedStreetView env written lat lng bearing v st)
                      !! key = Some raw).
  { unfold setCachedStreetView. rewrite Hw. cbn [negb]. fold key entry.
    unfold saveToStorage.
    assert (Hav : tier2Available env (withMemory st (<[key := entry]> (memoryCache st))) = true)
      by (rewrite tier2Available_withMemory; now apply probe_succeeds).
    unfold tier2Available in Hav.
    destruct (getPersistentStorage env _) as [avail st1]. cbn [fst] in Hav. subst avail.
    cbn [negb]. fold raw. rewrite Hq. cbn. apply lookup_insert_eq. }
  unfold getCachedStreetView. rewrite Hw. cbn [negb]. fold key.
  unfold pageReload at 1. cbn [memoryCache]. rewrite lookup_empty.
  rewrite (loadFromStorage_cases env key _ Hk). cbv zeta.
  rewrite probe_succeeds by (auto; discriminate).
  unfold pageReload at 1. cbn [localStorage]. rewrite Hstored.
  apply String.eqb_neq in Hne. rewrite Hne.
  unfold decodeStored. rewrite Hrt. unfold entry.
  rewrite (validEntry_entryToJson v (inject_Z written) Ho Hn).
  rewrite isExpired_written. apply Z.ltb_ge in Hfresh. now rewrite Hfresh.
Qed.

Lemma browser_entry_survives_reload_witness :
  fst (getCachedStreetView
         (echoBrowser (entryToJson (mkEntry (payloadToJson emptyPayload) 0
                                             (inject_Z CACHE_VERSION))))
         HOUR (fst timesSquare) (snd timesSquare) (Fin 0)
         (pageReload
            (setCachedStreetView
               (echoBrowser (entryToJson (mkEntry (payloadToJson emptyPayload) 0
                                                   (inject_Z CACHE_VERSION))))
               0 (fst timesSquare) (snd timesSquare) (Fin 0)
               (payloadToJson emptyPayload) (mkState ∅ ∅ Unprobed []))))
  = Some (payloadToJson emptyPayload).
Proof.
  apply (browser_entry_survives_reload
           (echoBrowser (entryToJson (mkEntry (payloadToJson emptyPayload) 0
                                               (inject_Z CACHE_VERSION))))
           0 HOUR (fst timesSquare) (snd timesSquare) (Fin 0)
           (payloadToJson emptyPayload) (mkState ∅ ∅ Unprobed []));
    try reflexivity; try discriminate.
Defined.

End BrowserCacheFacts2.

Section FetchFacts.
Import Num Json Imagery Aux Spec Browser.



(** X20.  The availability of tier 2 is decided once: after the first
    probe the answer of [getPersistentStorage] is fixed, whatever the
    browser does later; and once the answer is "no storage", reads and
    writes never touch [localStorage] again. *)
Theorem storage_probe_is_sticky
    (env env' : Env) (now : Z) (lat lng bearing : number) (v : json) (st : State) :
  (let probed := snd (getPersistentStorage env st) in
   getPersistentStorage env' probed = (fst (getPersistentStorage env st), probed)) /\
  (persistentStorage st = NoStorage ->
     localStorage (snd (getCachedStreetView env' now lat lng bearing st)) = localStorage st /\
     persistentStorage (snd (getCachedStreetView env' now lat lng bearing st)) = NoStorage /\
     localStorage (setCachedStreetView env' now lat lng bearing v st) = localStorage st /\
     persistentStorage (setCachedStreetView env' now lat lng bearing v st) = NoStorage).
Proof.
  split.
  - cbv zeta. unfold getPersistentStorage at 2 3 4.
    destruct (persistentStorage st) eqn:E; cbn [fst snd];
      try (unfold getPersistentStorage; now rewrite E).
    destruct (hasWindow env); [|reflexivity].
    destruct (storageAccessible env); [|reflexivity]. cbn [negb].
    destruct (setItemThrows env _ _ _); reflexivity.
  - intros Hno.
    assert (Hrem : forall k s, persistentStorage s = NoStorage ->
              removeFromStorage env' k s = s).
    { intros k s Hs. unfold removeFromStorage.
      now rewrite (getPersistentStorage_NoStorage env' s Hs). }
    assert (Hload : forall k, loadFromStorage env' k st = (None, st)).
    { intros k. unfold loadFromStorage.
      now rewrite (getPersistentStorage_NoStorage env' st Hno). }
    assert (Hsave : forall k e s, persistentStorage s = NoStorage ->
              saveToStorage env' k e s = s).
    { intros k e s Hs. unfold saveToStorage.
      now rewrite (getPersistentStorage_NoStorage env' s Hs). }
    unfold getCachedStreetView, setCachedStreetView.
    destruct (hasWindow env'); cbn [negb]; [|auto].
    rewrite Hsave by exact Hno. cbn [localStorage persistentStorage withMemory].
    destruct (memoryCache st !! _) as [e|].
    + destruct (isExpired now e); cbn [snd]; [|auto].
      rewrite Hrem by exact Hno. cbn. auto.
    + rewrite Hload. cbn [snd]. auto.
Qed.

Lemma storage_probe_is_sticky_witness :
  localStorage
    (setCachedStreetView demoBrowser 0 (fst timesSquare) (snd timesSquare) (Fin 0)
       (payloadToJson emptyPayload) (mkState ∅ ∅ NoStorage []))
  = ∅.
Proof.
  apply (storage_probe_is_sticky demoBrowser demoBrowser 0 (fst timesSquare)
           (snd timesSquare) (Fin 0) (payloadToJson emptyPayload)
           (mkState ∅ ∅ NoStorage [])).
  reflexivity.
Defined.

End FetchFacts.

(* ===================================================================== *)
(** * Further properties of the API route                                 *)
(* ===================================================================== *)

Section RouteMoreFacts.
Import Num Json Imagery Aux Spec Route.

Lemma GET_unfold_accepted (env : Env) (request : Request) (w : World) :
  accepted env request = true ->
  GET env request w =
  match normalizedBearingOf (bearingParam request) with
  | Some nb =>
      let '(cached, c1) :=
        ServerCache.getCachedStreetView (nowAtRead env) (latOf request) (lngOf request) nb
          (cache w) in
      let w1 := mkWorld c1 (upstreamLog w) in
      match cached with
      | Some payload => (mkResponse 200 (PayloadBody payload), w1)
      | None => queryUpstream env (latOf request) (lngOf request) (Some nb) w1
      end
  | None => queryUpstream env (latOf request) (lngOf request) None w
  end.
Proof.
  unfold accepted, coordinatesMissing, tokenMissing, coordinatesNotFinite, GET.
  fold (latOf request) (lngOf request).
  destruct (missing (latParam request) || missing (lngParam request)); [discriminate|].
  destruct (missing (accessToken env)); [discriminate|].
  destruct (negb (isFinite (latOf request)) || negb (isFinite (lngOf request)));
    [discriminate|].
  intros _. destruct (normalizedBearingOf (bearingParam request)); reflexivity.
Qed.





(** X22.  Repeating a request.  When a request with a usable bearing was
    answered from the upstream service, the same request repeated within
    the TTL of that answer gets the same body with status 200 from the
    cache: the world is left as it was, so no upstream query is made, even
    if the upstream service would now fail. *)
Theorem repeated_request_is_served_from_cache
    (env1 env2 : Env) (request : Request) (w : World) (nb : number) :
  accepted env1 request = true -> accepted env2 request = true ->
  normalizedBearingOf (bearingParam request) = Some nb ->
  servedFromCache env1 request w = false ->
  upstreamFails (upstream env1 (latOf request) (lngOf request)) = false ->
  nowAtRead env2 - nowAtWrite env1 <= ServerCache.CACHE_TTL_MS ->
  let first := GET env1 request w in
  GET env2 request (snd first) = (mkResponse 200 (body (fst first)), snd first).
Proof.
  intros Hacc1 Hacc2 Hnb Hmiss Hup Hage. cbv zeta.
  rewrite (GET_unfold_accepted env1 request w Hacc1), Hnb.
  unfold servedFromCache in Hmiss. rewrite Hnb in Hmiss.
  destruct (ServerCache.getCachedStreetView _ _ _ _ _) as [[payload|] c1];
    cbn [fst] in Hmiss; [discriminate|].
  unfold queryUpstream. unfold upstreamFails in Hup.
  destruct (upstream env1 (latOf request) (lngOf request)) as [|ok code data];
    [discriminate|].
  destruct ok; [|discriminate]. cbn [negb fst snd body cacheWrite cache upstreamLog].
  apply (GET_hit env2 request (nowAtWrite env1) nb _ c1 _ Hacc2 Hnb Hage).
Qed.

Lemma repeated_request_is_served_from_cache_witness :
  let request := mkRequest (Some "40.758") (Some "-73.9855") (Some "90") in
  let env1 := mkEnv (Some "token") 0 5
                (fun _ _ => FetchResponse true 200
                   (Some [JObj [("thumb_1024_url", JStr "u")]%string])) in
  let env2 := mkEnv (Some "token") HOUR HOUR (fun _ _ => FetchThrows) in
  let w := mkWorld (ServerCache.mkStore None None) [] in
  status (fst (GET env2 request (snd (GET env1 request w)))) = 200 /\
  upstreamLog (snd (GET env2 request (snd (GET env1 request w))))
    = upstreamLog (snd (GET env1 request w)).
Proof.
  cbv zeta.
  rewrite (repeated_request_is_served_from_cache
             (mkEnv (Some "token") 0 5
                (fun _ _ => FetchResponse true 200
                   (Some [JObj [("thumb_1024_url", JStr "u")]%string])))
             (mkEnv (Some "token") HOUR HOUR (fun _ _ => FetchThrows))
             (mkRequest (Some "40.758") (Some "-73.9855") (Some "90"))
             (mkWorld (ServerCache.mkStore None None) [])
             (Fin 90)); try reflexivity.
  - split; reflexivity.
  - vm_compute. discriminate.
Defined.

End RouteMoreFacts.

(* ===================================================================== *)
(** * Properties of the pass-through route                                *)
(* ===================================================================== *)

Section ProxyFacts.
Import Num Json Aux Spec Proxy.





End ProxyFacts.
